(** * Ghost / BunnyCDN cache clearer: a shallow embedding of [worker.js]

    The worker receives a webhook, authorizes it (bypass token or Ghost
    signature), purges the pull zone and deletes every Perma-Cache folder.
    The embedding follows [src/worker.js] function by function; the older
    variant of the same handler ([src/unnamed/part_002]) lives in
    [Module Legacy].

    Conventions.
    - JavaScript values that flow through the handler are a small tagged
      union [Value]; truthiness, template-literal conversion and [===] are
      written out.
    - Numbers are [Z] with [None] for [NaN].  [Date.now()] is an integer of
      at most 8.64e15 ms, below 2^53, so the comparison of line 101 on
      exact integers agrees with the one on doubles.
    - An [async] function is a computation [Async A]: how it completes
      (returns, throws/rejects, or awaits a promise that never settles)
      together with the console lines and [fetch] calls it made, in order.
    - Everything the outside world decides (configuration, clock, the
      answers of the CDN, the order in which concurrent deletions settle)
      is a field of [World]. *)

From Stdlib Require Import ZArith Ascii String List Lia.
From stdpp Require Import base option list gmap strings pretty.

Local Open Scope Z_scope.

(** ** Strings *)

Module JsString.

(** [s.split(sep)] for a non-empty separator: cut at every occurrence,
    scanning left to right.  [skip] counts the characters of a matched
    separator still to be dropped; [cur] is the piece being built. *)
Fixpoint split_go (sep s : string) (skip : nat) (cur : string) : list string :=
  match s with
  | EmptyString => [cur]
  | String c s' =>
      match skip with
      | S k => split_go sep s' k cur
      | O =>
          if String.prefix sep s
          then cur :: split_go sep s' (String.length sep - 1) ""
          else split_go sep s' 0 (cur +:+ String c "")
      end
  end.

Definition split (sep s : string) : list string := split_go sep s 0 "".

(** The white space [parseInt] skips (ASCII part of StrWhiteSpaceChar). *)
Definition is_space (c : ascii) : bool :=
  let n := nat_of_ascii c in
  ((9 <=? n)%nat && (n <=? 13)%nat) || (n =? 32)%nat.

Fixpoint trim_start (s : string) : string :=
  match s with
  | String c s' => if is_space c then trim_start s' else s
  | EmptyString => EmptyString
  end.

Definition digit_value (c : ascii) : option Z :=
  let n := Z.of_nat (nat_of_ascii c) in
  if (48 <=? n) && (n <=? 57) then Some (n - 48)
  else if (97 <=? n) && (n <=? 122) then Some (n - 87)
  else if (65 <=? n) && (n <=? 90) then Some (n - 55)
  else None.

(** Longest prefix of digits below [radix]; [acc] is [None] until a digit
    has been read. *)
Fixpoint parse_digits (radix : Z) (s : string) (acc : option Z) : option Z :=
  match s with
  | EmptyString => acc
  | String c s' =>
      match digit_value c with
      | Some d =>
          if d <? radix
          then parse_digits radix s' (Some (radix * default 0 acc + d))
          else acc
      | None => acc
      end
  end.

Definition strip_sign (s : string) : Z * string :=
  match s with
  | String "-" s' => (-1, s')
  | String "+" s' => (1, s')
  | _ => (1, s)
  end.

Definition strip_radix (s : string) : Z * string :=
  match s with
  | String "0" (String "x" s') => (16, s')
  | String "0" (String "X" s') => (16, s')
  | _ => (10, s)
  end.

(** [parseInt(s)] without a radix argument; [None] is [NaN]. *)
Definition parseInt (s : string) : option Z :=
  let '(sign, s1) := strip_sign (trim_start s) in
  let '(radix, s2) := strip_radix s1 in
  Z.mul sign <$> parse_digits radix s2 None.

End JsString.

(** ** Values, responses, errors *)

Record Response := mkResponse { status : Z; body : string }.

(** [new Response(body)]: the status defaults to 200. *)
Definition HTTP_OK : Z := 200.
Definition HTTP_FORBIDDEN : Z := 403.
Definition HTTP_NOT_FOUND : Z := 404.
Definition HTTP_SERVER_ERROR : Z := 500.

Definition newResponse (b : string) : Response := mkResponse HTTP_OK b.

(** [response.ok] *)
Definition ok (st : Z) : bool := (200 <=? st) && (st <=? 299).

(** A thrown [Error] / [TypeError]; the handler only reads [message]. *)
Record JsError := mkError { message : string }.

Inductive Value :=
| VUndefined
| VNull
| VBool (b : bool)
| VStr (s : string)
| VResp (r : Response).

(** [!v] is [negb (truthy v)] *)
Definition truthy (v : Value) : bool :=
  match v with
  | VUndefined | VNull => false
  | VBool b => b
  | VStr s => negb (String.eqb s "")
  | VResp _ => true
  end.

(** [`${v}`] *)
Definition toString (v : Value) : string :=
  match v with
  | VUndefined => "undefined"
  | VNull => "null"
  | VBool true => "true"
  | VBool false => "false"
  | VStr s => s
  | VResp _ => "[object Response]"
  end.

(** [a === b] on the values that are compared in the handler (two distinct
    objects are never equal). *)
Definition strict_eq (a b : Value) : bool :=
  match a, b with
  | VUndefined, VUndefined | VNull, VNull => true
  | VBool x, VBool y => Bool.eqb x y
  | VStr x, VStr y => String.eqb x y
  | _, _ => false
  end.

(** [const [a, b] = arr]: a missing element is [undefined]. *)
Definition element (i : nat) (arr : list Value) : Value :=
  default VUndefined (arr !! i).

(** ** Effects *)

Inductive Event :=
| Log (level text : string)        (* console[level]("[LEVEL] text", ...) *)
| Fetch (method url : string).     (* an outgoing request *)

Inductive Completion (A : Type) :=
| Return (a : A)
| Throw (e : JsError)
| Pending.                         (* awaits a promise that never settles *)
Arguments Return {A} a.
Arguments Throw {A} e.
Arguments Pending {A}.

Definition Async (A : Type) : Type := Completion A * list Event.

Definition completion {A} (m : Async A) : Completion A := fst m.
Definition trace {A} (m : Async A) : list Event := snd m.

#[global] Instance Async_ret : MRet Async := λ A a, (Return a, []).

#[global] Instance Async_bind : MBind Async := λ A B f m,
  match m with
  | (Return a, t) => let '(c, t') := f a in (c, t ++ t')
  | (Throw e, t) => (Throw e, t)
  | (Pending, t) => (Pending, t)
  end.

#[global] Instance Async_fmap : FMap Async := λ A B f m,
  match m with
  | (Return a, t) => (Return (f a), t)
  | (Throw e, t) => (Throw e, t)
  | (Pending, t) => (Pending, t)
  end.

Definition throw {A} (e : JsError) : Async A := (Throw e, []).
Definition emit (evs : list Event) : Async unit := (Return tt, evs).

(** [try { m } catch (error) { h error }] *)
Definition try_catch {A} (m : Async A) (h : JsError → Async A) : Async A :=
  match m with
  | (Throw e, t) => let '(c, t') := h e in (c, t ++ t')
  | other => other
  end.

(** A promise made by calling an [async] function: what it did before its
    first [await] ([started]), and how it goes on once the awaited call has
    settled ([settles]). *)
Record Promise (A : Type) := mkPromise {
  started : list Event;
  settles : Async A;
}.
Arguments mkPromise {A}.
Arguments started {A}.
Arguments settles {A}.

(** [await p] right at the call. *)
Definition await {A} (p : Promise A) : Async A := emit (started p) ;; settles p.

(** [arr.map(f)] for an async [f]: every call runs up to its first [await]. *)
Definition map_async {A B} (f : nat → A → Promise B) (arr : list A)
  : Async (list (Promise B)) :=
  let promises := imap f arr in
  emit (mjoin (started <$> promises)) ;; mret promises.

(** The result array of [Promise.all] once no slot is empty. *)
Fixpoint filled {A} (slots : list (option A)) : option (list A) :=
  match slots with
  | [] => Some []
  | Some a :: rest => cons a <$> filled rest
  | None :: _ => None
  end.

(** [await Promise.all(promises)], the promises settling in [order] (indices
    into [promises]).  A fulfilled promise fills its own slot; the first
    rejected one rejects the whole, at once, whatever is still pending;
    when [order] ends with a slot still empty the wait never ends. *)
Fixpoint settleAll {A} (promises : list (Promise A)) (order : list nat)
    (slots : list (option A)) : Async (list A) :=
  match filled slots with
  | Some results => mret results
  | None =>
      match order with
      | [] => (Pending, [])
      | i :: rest =>
          match promises !! i, slots !! i with
          | Some p, Some None =>
              r ← settles p; settleAll promises rest (<[i := Some r]> slots)
          | _, _ => settleAll promises rest slots
          end
      end
  end.

Definition Promise_all {A} (promises : list (Promise A)) (order : list nat)
  : Async (list A) :=
  settleAll promises order (replicate (List.length promises) None).

(** ** The outside world *)

(** One entry of the storage listing. *)
Record CacheFolderEntry := mkFolder { ObjectName : string }.

(** What a [fetch] call comes back with: a response (any status; [json] is
    the parsed payload, read by the listing only) or a rejection. *)
Inductive FetchOutcome :=
| Responded (st : Z) (json : list CacheFolderEntry)
| NetworkError (msg : string).

Record FetchResponse := mkFetchResponse {
  resp_status : Z;
  resp_json : list CacheFolderEntry;
}.

Record Request := mkRequest {
  method : string;
  pathname : string;               (* new URL(request.url).pathname *)
  headers : gmap string string;    (* keyed by lower-case header name *)
  text : string;                   (* request.text() *)
}.

Record World := mkWorld {
  self : gmap string string;       (* the bindings of the global scope *)
  now : Z;                         (* Date.now() *)
  purgeAnswer : FetchOutcome;
  listAnswer : FetchOutcome;
  deleteAnswer : nat → FetchOutcome;   (* by position in the listing *)
  settleOrder : list nat;          (* order in which the deletions settle *)
}.

Definition lower_ascii (c : ascii) : ascii :=
  let n := nat_of_ascii c in
  if ((65 <=? n)%nat && (n <=? 90)%nat) then ascii_of_nat (n + 32) else c.

Fixpoint lower (s : string) : string :=
  match s with
  | EmptyString => EmptyString
  | String c s' => String (lower_ascii c) (lower s')
  end.

(** [request.headers.get(name)]: names are case-insensitive, an absent
    header is [null]. *)
Definition headers_get (name : string) (request : Request) : Value :=
  match headers request !! lower name with
  | Some v => VStr v
  | None => VNull
  end.

(** [v.split(sep)] as a method call: [undefined] has no properties. *)
Definition split (v : Value) (sep : string) : Async (list Value) :=
  match v with
  | VStr s => mret (VStr <$> JsString.split sep s)
  | _ =>
      throw (mkError ("Cannot read properties of " +:+ toString v
                      +:+ " (reading 'split')"))
  end.

(** [fetch(url, { method })] *)
Definition fetch (method url : string) (answer : FetchOutcome)
  : Promise FetchResponse :=
  mkPromise [Fetch method url]
    match answer with
    | Responded st json => mret (mkFetchResponse st json)
    | NetworkError msg => throw (mkError msg)
    end.

(** An async function whose body is [pre; const x = await p; k x]. *)
Definition async_await {A B} (pre : list Event) (p : Promise A)
    (k : A → Async B) : Promise B :=
  mkPromise (pre ++ started p) (x ← settles p; k x).

(** [results.filter(Boolean)] *)
Definition Boolean (b : bool) : bool := b.

(** ** worker.js *)

Definition REQUIRED_ENV_VARS : list string :=
  [ "GHOST_WEBHOOK_SECRET";
    "BUNNY_PULLZONE_ID";
    "BUNNY_API_KEY";
    "BUNNY_STORAGE_ZONE_HOSTNAME";
    "BUNNY_STORAGE_ZONE_NAME";
    "BUNNY_STORAGE_ZONE_PASSWORD";
    "MANUAL_TRIGGER_TOKEN" ].

(** The console line of [log(level, message, data)], without the
    serialized [data]. *)
Definition log (level message : string) : Async unit := emit [Log level message].

Definition handleError (error : JsError) (customMessage : string)
  : Async Response :=
  log "error" (customMessage +:+ " " +:+ message error) ;;
  mret (mkResponse HTTP_SERVER_ERROR ("An error occurred: " +:+ message error)).

Section Worker.

(** HMAC-SHA256 of a message under a key, as lower-case hex
    ([crypto.subtle.importKey] / [sign] and the hex encoding). *)
Variable hmacSha256Hex : string → string → string.

Variable W : World.

(** [self.NAME] *)
Definition self_get (name : string) : Value :=
  match self W !! name with
  | Some v => VStr v
  | None => VUndefined
  end.

(** The loop of [validateEnvironmentVariables]. *)
Fixpoint requireAll (vars : list string) : Async unit :=
  match vars with
  | [] => mret tt
  | varName :: rest =>
      match self W !! varName with
      | None =>
          throw (mkError ("Missing required environment variable: " +:+ varName))
      | Some _ => requireAll rest
      end
  end.

Definition validateEnvironmentVariables : Async unit :=
  log "info" "Checking environment variables" ;;
  requireAll REQUIRED_ENV_VARS ;;
  log "info" "All required environment variables are set".

Definition verifySignature (request : Request) : Async Value :=
  try_catch
    (let signatureHeader := headers_get "X-Ghost-Signature" request in
     if negb (truthy signatureHeader) then mret (VBool false) else
     parts ← split signatureHeader ", ";
     let sigHash := element 0 parts in
     let timeStamp := element 1 parts in
     hashParts ← split sigHash "=";
     let hash := element 1 hashParts in
     tsParts ← split timeStamp "=";
     let ts := element 1 tsParts in
     if match JsString.parseInt (toString ts) with
        | Some t => Z.abs (now W - t) >? 5 * 60 * 1000
        | None => false           (* NaN > x *)
        end
     then mret (VBool false) else
     let secret := self_get "GHOST_WEBHOOK_SECRET" in
     if negb (truthy secret) then mret (VBool false) else
     let body := text request in
     let message := body +:+ toString ts in
     let computedHash := hmacSha256Hex (toString secret) message in
     mret (VBool (strict_eq (VStr computedHash) hash)))
    (λ error, VResp <$> handleError error "Error in verifySignature:").

Definition purgeUrl : string :=
  "https://api.bunny.net/pullzone/" +:+ toString (self_get "BUNNY_PULLZONE_ID")
  +:+ "/purgeCache".

Definition purgeBunnyCDNCache : Async unit :=
  log "info" "Purging BunnyCDN pull zone cache" ;;
  purgeResponse ← await (fetch "POST" purgeUrl (purgeAnswer W));
  if negb (ok (resp_status purgeResponse))
  then throw (mkError ("Failed to purge cache. Status: "
                       +:+ pretty (resp_status purgeResponse)))
  else
    log "info" ("Pull zone cache cleared for zone ID: "
                +:+ toString (self_get "BUNNY_PULLZONE_ID")).

Definition permaCacheUrl : string :=
  "https://" +:+ toString (self_get "BUNNY_STORAGE_ZONE_HOSTNAME") +:+ "/"
  +:+ toString (self_get "BUNNY_STORAGE_ZONE_NAME") +:+ "/__bcdn_perma_cache__/".

Definition listPermaCacheFolders : Async (list CacheFolderEntry) :=
  listResponse ← await (fetch "GET" permaCacheUrl (listAnswer W));
  if negb (ok (resp_status listResponse))
  then throw (mkError ("Failed to list Perma-Cache folders. Status: "
                       +:+ pretty (resp_status listResponse)))
  else mret (resp_json listResponse).

Definition folderUrl (folder : CacheFolderEntry) : string :=
  permaCacheUrl +:+ ObjectName folder +:+ "/".

(** [index] is the position [map] calls it at; it selects the answer of
    the storage API. *)
Definition deleteFolder (index : nat) (folder : CacheFolderEntry)
  : Promise bool :=
  async_await
    [Log "info" ("Attempting to delete folder: " +:+ ObjectName folder)]
    (fetch "DELETE" (folderUrl folder) (deleteAnswer W index))
    (λ deleteResponse,
       if ok (resp_status deleteResponse)
       then log "info" ("Deleted folder: " +:+ ObjectName folder) ;; mret true
       else log "error" ("Failed to delete folder: " +:+ ObjectName folder) ;;
            mret false).

Definition tallyString (total deleted failed : nat) : string :=
  "Cleanup completed. Total folders: " +:+ pretty total +:+ ", Deleted: "
  +:+ pretty deleted +:+ ", Failed: " +:+ pretty failed.

Definition cleanupPermaCacheFolders : Async Value :=
  try_catch
    (log "info" "Starting Perma-Cache folder cleanup" ;;
     folders ← listPermaCacheFolders;
     log "info" "Number of folders found:" ;;
     deletePromises ← map_async deleteFolder folders;
     results ← Promise_all deletePromises (settleOrder W);
     let deletedCount := List.length (List.filter Boolean results) in
     let failedCount := (List.length results - deletedCount)%nat in
     log "info" "Cleanup completed" ;;
     mret (VStr (tallyString (List.length folders) deletedCount failedCount)))
    (λ error, VResp <$> handleError error "Error in cleanupPermaCacheFolders:").

(** Lines 85-89, the tail of [handlePurgeFullCache] that both branches of
    the authorization run into. *)
Definition purgeThenCleanup : Async Response :=
  purgeBunnyCDNCache ;;
  cleanupResult ← cleanupPermaCacheFolders;
  mret (newResponse
          ("Full cache purge initiated successfully. Cleanup result: "
           +:+ toString cleanupResult)).

Definition handlePurgeFullCache (request : Request) : Async Response :=
  let manualTriggerToken := headers_get "manualtriggertoken" request in
  log "info" "Received token:" ;;
  if negb (strict_eq manualTriggerToken (self_get "MANUAL_TRIGGER_TOKEN"))
  then
    log "info" "Verifying Ghost webhook signature" ;;
    isValid ← verifySignature request;
    if negb (truthy isValid)
    then
      log "warn" "Invalid signature" ;;
      mret (mkResponse HTTP_FORBIDDEN "Invalid signature")
    else
      log "info" "Signature verified successfully" ;;
      purgeThenCleanup
  else
    log "info" "Manual trigger token matched, skipping signature verification" ;;
    purgeThenCleanup.

(** The [try] block ends in [return handlePurgeFullCache(request)], with
    no [await]: the block hands back the promise of that call and is
    left, and the promise of [handleRequest] follows it.  A rejection of
    that call therefore does not pass through the [catch]. *)
Definition handleRequest (request : Request) : Async Response :=
  returned ← try_catch
    (log "info" "Worker started" ;;
     validateEnvironmentVariables ;;
     let pathname := pathname request in
     log "info" "Request path:" ;;
     if String.eqb pathname "/purge-full-cache"
     then mret (handlePurgeFullCache request)
     else mret (mret (mkResponse HTTP_NOT_FOUND "Not Found")))
    (λ error, mret <$> handleError error "Error in handleRequest:");
  returned.

End Worker.

(** ** The fetch listener *)

(** What the client is answered.  [event.respondWith(p)] serves the response
    [p] is fulfilled with; when [p] is rejected the handler has produced no
    response and the Workers runtime answers by itself, with its
    "Worker threw exception" page, which is an HTTP 500. *)
Inductive Served :=
| Answer (r : Response)
| WorkerException (e : JsError)
| NoAnswer.

Definition respondWith (p : Async Response) : Served :=
  match completion p with
  | Return r => Answer r
  | Throw e => WorkerException e
  | Pending => NoAnswer
  end.

Definition servedStatus (s : Served) : option Z :=
  match s with
  | Answer r => Some (status r)
  | WorkerException _ => Some HTTP_SERVER_ERROR
  | NoAnswer => None
  end.

(** [addEventListener("fetch", (event) => event.respondWith(handleRequest(event)))] *)
Definition onFetch (hmacSha256Hex : string → string → string) (W : World)
    (request : Request) : Served :=
  respondWith (handleRequest hmacSha256Hex W request).

(** ** The legacy variant (src/unnamed/part_002) *)

Module Legacy.

Definition console_log (text : string) : Async unit := emit [Log "log" text].
Definition console_error (text : string) : Async unit := emit [Log "error" text].

Section Worker.

Variable hmacSha256Hex : string → string → string.
Variable W : World.

Definition verifySignature (request : Request) : Async Value :=
  try_catch
    (let signatureHeader := headers_get "X-Ghost-Signature" request in
     if negb (truthy signatureHeader) then mret (VBool false) else
     parts ← split signatureHeader ", ";
     let sigHash := element 0 parts in
     let timeStamp := element 1 parts in
     hashParts ← split sigHash "=";
     let hash := element 1 hashParts in
     tsParts ← split timeStamp "=";
     let ts := element 1 tsParts in
     let currentTime := now W in
     if match JsString.parseInt (toString ts) with
        | Some t => Z.abs (currentTime - t) >? 5 * 60 * 1000
        | None => false
        end
     then mret (VBool false) else
     let secret := self_get W "GHOST_WEBHOOK_SECRET" in
     if negb (truthy secret) then mret (VBool false) else
     let body := text request in
     let message := body +:+ toString ts in
     let computedHash := hmacSha256Hex (toString secret) message in
     mret (VBool (strict_eq (VStr computedHash) hash)))
    (λ error, console_error "Error in verifySignature" ;; mret (VBool false)).

(** The [for (const folder of folders)] loop: one deletion at a time,
    two counters. *)
Fixpoint deleteLoop (index : nat) (folders : list CacheFolderEntry)
    (deletedCount failedCount : nat) : Async (nat * nat) :=
  match folders with
  | [] => mret (deletedCount, failedCount)
  | folder :: rest =>
      console_log ("Attempting to delete folder: " +:+ ObjectName folder) ;;
      deleteResponse ←
        await (fetch "DELETE" (folderUrl W folder) (deleteAnswer W index));
      if ok (resp_status deleteResponse)
      then
        console_log ("Deleted folder: " +:+ ObjectName folder) ;;
        deleteLoop (S index) rest (S deletedCount) failedCount
      else
        console_error ("Failed to delete folder: " +:+ ObjectName folder
                       +:+ ". Status: " +:+ pretty (resp_status deleteResponse)) ;;
        deleteLoop (S index) rest deletedCount (S failedCount)
  end.

Definition cleanupPermaCacheFolders : Async Value :=
  try_catch
    (console_log "Starting Perma-Cache folder cleanup" ;;
     listResponse ← await (fetch "GET" (permaCacheUrl W) (listAnswer W));
     if negb (ok (resp_status listResponse))
     then throw (mkError ("Failed to list Perma-Cache folders. Status: "
                          +:+ pretty (resp_status listResponse)))
     else
       let folders := resp_json listResponse in
       console_log "Number of folders found:" ;;
       counts ← deleteLoop 0 folders 0 0;
       let deletedCount := counts.1 in
       let failedCount := counts.2 in
       console_log ("Cleanup completed. Deleted: " +:+ pretty deletedCount
                    +:+ ", Failed: " +:+ pretty failedCount) ;;
       mret (VStr ("Cleanup completed. Total folders: "
                   +:+ pretty (List.length folders) +:+ ", Deleted: "
                   +:+ pretty deletedCount +:+ ", Failed: "
                   +:+ pretty failedCount)))
    (λ error,
       console_error "Error in cleanupPermaCacheFolders:" ;;
       mret (VStr ("Error during cleanup: " +:+ message error))).

(** The six names the legacy handler checks (lines 33-40). *)
Definition requiredEnvVars : list string :=
  [ "GHOST_WEBHOOK_SECRET";
    "BUNNY_PULLZONE_ID";
    "BUNNY_API_KEY";
    "BUNNY_STORAGE_ZONE_HOSTNAME";
    "BUNNY_STORAGE_ZONE_NAME";
    "BUNNY_STORAGE_ZONE_PASSWORD" ].

(** The legacy [handleRequest] (lines 24-102): the check of the variables,
    the verification, the purge and the call of the cleanup are all inside
    one [try], each awaited in place.  Its loop over the names is the loop
    of [validateEnvironmentVariables]. *)
Definition handleRequest (request : Request) : Async Response :=
  try_catch
    (console_log "Worker started" ;;
     console_log "Checking environment variables" ;;
     console_log "Available environment variables:" ;;
     requireAll W requiredEnvVars ;;
     console_log "All required environment variables are set" ;;
     let pathname := pathname request in
     console_log "Request path:" ;;
     if String.eqb pathname "/purge-full-cache"
     then
       console_log "Verifying Ghost webhook signature" ;;
       isValid ← verifySignature request;
       if negb (truthy isValid)
       then
         console_log "Invalid signature" ;;
         mret (mkResponse 403 "Invalid signature")
       else
         console_log "Signature verified successfully" ;;
         console_log "Purging BunnyCDN pull zone cache" ;;
         purgeResponse ← await (fetch "POST" (purgeUrl W) (purgeAnswer W));
         if ok (resp_status purgeResponse)
         then
           console_log "Cache purge successful" ;;
           console_log ("Pull zone cache cleared for zone ID: "
                        +:+ toString (self_get W "BUNNY_PULLZONE_ID")) ;;
           console_log "Cleaning up Perma-Cache folders" ;;
           cleanupResult ← cleanupPermaCacheFolders;
           console_log "Cleanup completed" ;;
           mret (newResponse
                   ("Full cache purge initiated successfully. Cleanup result: "
                    +:+ toString cleanupResult))
         else
           console_log "Cache purge failed" ;;
           throw (mkError ("Failed to purge cache. Status: "
                           +:+ pretty (resp_status purgeResponse)))
     else
       console_log "Invalid path" ;;
       mret (mkResponse 404 "Not Found"))
    (λ error,
       console_error "Error in handleRequest:" ;;
       mret (mkResponse 500 ("An error occurred: " +:+ message error))).

(** The legacy listener (lines 13-22):
    [event.respondWith(handleRequest(event).catch(...))]. *)
Definition onFetch (request : Request) : Served :=
  respondWith
    (try_catch (handleRequest request)
       (λ error,
          console_error "Unhandled error in fetch event:" ;;
          mret (mkResponse 500
                  ("An unhandled error occurred: " +:+ message error)))).

End Worker.

End Legacy.


(** ** Vocabulary of the statements *)

#[global] Instance Response_eq_dec : EqDecision Response.
Proof. solve_decision. Defined.

#[global] Instance JsError_eq_dec : EqDecision JsError.
Proof. solve_decision. Defined.

#[global] Instance Value_eq_dec : EqDecision Value.
Proof. solve_decision. Defined.

#[global] Instance Event_eq_dec : EqDecision Event.
Proof. solve_decision. Defined.

(** Every one of [n] concurrent deletions settles at some point of [order]. *)
Definition allSettle (n : nat) (order : list nat) : Prop :=
  ∀ i, (i < n)%nat → i ∈ order.

(** Every one of the first [n] delete calls is answered with a response
    (of any status): none raises. *)
Definition answered (W : World) (n : nat) : Prop :=
  ∀ i, (i < n)%nat → ∃ st json, deleteAnswer W i = Responded st json.

(** The deletion at position [i] succeeds: a 2xx answer. *)
Definition deleteSucceeds (W : World) (i : nat) : bool :=
  match deleteAnswer W i with
  | Responded st _ => ok st
  | NetworkError _ => false
  end.

Definition deleteOutcomes (W : World) (n : nat) : list bool :=
  deleteSucceeds W <$> seq 0 n.

(** How many of the first [n] deletions do not succeed. *)
Definition failures (W : World) (n : nat) : nat :=
  List.length (List.filter (λ i, negb (deleteSucceeds W i)) (seq 0 n)).

(** Every slot of the join is empty or holds the value its promise is
    fulfilled with. *)
Definition agree {A} (slots : list (option A)) (vals : list A) : Prop :=
  Forall2 (λ s a, s = None ∨ s = Some a) slots vals.

(** The console line [deleteFolder] writes when its call has been answered. *)
Definition settleLog (W : World) (i : nat) (folder : CacheFolderEntry) : Event :=
  if deleteSucceeds W i
  then Log "info" ("Deleted folder: " +:+ ObjectName folder)
  else Log "error" ("Failed to delete folder: " +:+ ObjectName folder).

(** What [cleanupPermaCacheFolders] does up to the answer of the listing. *)
Definition listingEvents (W : World) : list Event :=
  [Log "info" "Starting Perma-Cache folder cleanup";
   Fetch "GET" (permaCacheUrl W);
   Log "info" "Number of folders found:"].

(** What [folders.map(deleteFolder)] does: one console line and one DELETE
    per folder, in listing order. *)
Definition dispatchEvents (W : World) (folders : list CacheFolderEntry)
  : list Event :=
  mjoin (started <$> imap (deleteFolder W) folders).

(** All the required variables are bound. *)
Definition configured (W : World) : Prop :=
  ∀ varName, varName ∈ REQUIRED_ENV_VARS → is_Some (self W !! varName).

(** Console lines only, and none of them the first line of the cleanup. *)
Definition preamble (evs : list Event) : Prop :=
  Forall (λ e, ∃ level text,
            e = Log level text ∧ text ≠ "Starting Perma-Cache folder cleanup")
         evs.

(** A computation that completes without having written or fetched. *)
Definition silent {A} (m : Async A) : Prop :=
  trace m = [] ∧ completion m ≠ Pending.

(** What [handleRequest] writes before it looks at the path. *)
Definition routingLog : list Event :=
  [Log "info" "Worker started";
   Log "info" "Checking environment variables";
   Log "info" "All required environment variables are set";
   Log "info" "Request path:"].

(** The same request sent with another HTTP method. *)
Definition with_method (m : string) (request : Request) : Request :=
  mkRequest m (pathname request) (headers request) (text request).

(** The number that line 101 of [verifySignature] compares with the clock:
    [parseInt] of what follows the first [=] in the second [", "]-separated
    part of the header. *)
Definition signatureTimestamp (request : Request) : option Z :=
  match headers_get "X-Ghost-Signature" request with
  | VStr h =>
      match JsString.split ", " h with
      | _ :: timeStamp :: _ =>
          JsString.parseInt
            (toString (element 1 (VStr <$> JsString.split "=" timeStamp)))
      | _ => None
      end
  | _ => None
  end.

(** *** Vocabulary of the further properties *)

(** Every character of [s] differs from [c]. *)
Fixpoint lacks (c : ascii) (s : string) : Prop :=
  match s with
  | EmptyString => True
  | String x s' => x ≠ c ∧ lacks c s'
  end.

(** Lower-case hexadecimal text, as lines 120-122 of [verifySignature]
    encode the signature ([toString(16)], [padStart(2, "0")], [join("")]). *)
Definition is_hex_char (c : ascii) : bool :=
  let n := nat_of_ascii c in
  ((48 <=? n)%nat && (n <=? 57)%nat) || ((97 <=? n)%nat && (n <=? 102)%nat).

Fixpoint is_hex (s : string) : bool :=
  match s with
  | EmptyString => true
  | String c s' => is_hex_char c && is_hex s'
  end.

(** [s] consists of decimal digits. *)
Fixpoint all_digits (s : string) : Prop :=
  match s with
  | EmptyString => True
  | String c s' => (∃ d, (d < 10)%N ∧ c = pretty_N_char d) ∧ all_digits s'
  end.

(** The header in the form lines 97-99 of [verifySignature] take apart:
    [sha256=<hash>, t=<milliseconds>]. *)
Definition ghostSignature (hash : string) (t : Z) : string :=
  ("sha256=" +:+ hash) +:+ ", " +:+ ("t=" +:+ pretty t).

Definition is_fetch (e : Event) : bool :=
  match e with
  | Fetch _ _ => true
  | Log _ _ => false
  end.

(** The requests made, in the order they were made. *)
Definition fetches (tr : list Event) : list Event := List.filter is_fetch tr.

(** ** Concrete worlds and requests *)

Module Sample.

Definition bindings : gmap string string :=
  list_to_map
    [ ("GHOST_WEBHOOK_SECRET", "s3cret");
      ("BUNNY_PULLZONE_ID", "42");
      ("BUNNY_API_KEY", "key");
      ("BUNNY_STORAGE_ZONE_HOSTNAME", "ny.storage.bunnycdn.com");
      ("BUNNY_STORAGE_ZONE_NAME", "zone");
      ("BUNNY_STORAGE_ZONE_PASSWORD", "pw");
      ("MANUAL_TRIGGER_TOKEN", "letmein") ].

(** A stand-in for the keyed digest; the statements hold for any. *)
Definition digest (key msg : string) : string := key +:+ ":" +:+ msg.

Definition clock : Z := 1700000000000.

Definition accepted : FetchOutcome := Responded 200 [].
Definition unavailable : FetchOutcome := Responded 503 [].

Definition threeFolders : list CacheFolderEntry :=
  [mkFolder "a"; mkFolder "b"; mkFolder "c"].

(** Purge and listing succeed; of three deletions the second is refused;
    they settle in the order c, a, b. *)
Definition twoOfThree : World :=
  mkWorld bindings clock accepted (Responded 200 threeFolders)
    (λ i, if (i =? 1)%nat then Responded 500 [] else accepted) [2; 0; 1]%nat.

(** The purge is answered 503. *)
Definition purgeDown : World :=
  mkWorld bindings clock unavailable (Responded 200 threeFolders)
    (λ _, accepted) [0; 1; 2]%nat.

(** The listing is answered 503. *)
Definition listingDown : World :=
  mkWorld bindings clock accepted unavailable (λ _, accepted) [].

(** Two folders; the call deleting [a] raises and settles first, the one
    deleting [b] would be answered 200. *)
Definition firstRaises : World :=
  mkWorld bindings clock accepted (Responded 200 [mkFolder "a"; mkFolder "b"])
    (λ i, if (i =? 0)%nat then NetworkError "connection reset" else accepted)
    [0; 1]%nat.

(** One folder, whose deletion raises. *)
Definition onlyRaises : World :=
  mkWorld bindings clock accepted (Responded 200 [mkFolder "a"])
    (λ _, NetworkError "connection reset") [0]%nat.

(** Nothing is bound. *)
Definition unconfigured : World :=
  mkWorld ∅ clock accepted (Responded 200 threeFolders) (λ _, accepted)
    [0; 1; 2]%nat.

Definition post (path : string) (hs : list (string * string)) : Request :=
  mkRequest "POST" path (list_to_map hs) "{}".

Definition manual : Request :=
  post "/purge-full-cache" [("manualtriggertoken", "letmein")].

Definition unsplittable : Request :=
  post "/purge-full-cache" [("x-ghost-signature", "sha256=abc")].

(** Signed three years before [clock]. *)
Definition stale : Request :=
  post "/purge-full-cache" [("x-ghost-signature", "sha256=abc, t=1600000000000")].

Definition staleWithToken : Request :=
  post "/purge-full-cache"
    [("x-ghost-signature", "sha256=abc, t=1600000000000");
     ("manualtriggertoken", "letmein")].

(** The timestamp is not a number; the hash is the digest of the body
    followed by that text. *)
Definition notANumber : Request :=
  post "/purge-full-cache" [("x-ghost-signature", "sha256=s3cret:{}abc, t=abc")].

Definition elsewhere : Request := post "/" [].

(** A stand-in digest whose text is hexadecimal. *)
Definition hexDigest (key msg : string) : string :=
  pretty (String.length key) +:+ "a" +:+ pretty (String.length msg).

(** Signed at [clock] with the bound secret, under [hexDigest]. *)
Definition signed : Request :=
  post "/purge-full-cache"
    [("x-ghost-signature",
      ghostSignature (hexDigest "s3cret" ("{}" +:+ pretty clock)) clock)].

(** Stamped at [clock], with a hash that is not the digest. *)
Definition forged : Request :=
  post "/purge-full-cache" [("x-ghost-signature", ghostSignature "abc" clock)].

(** The purge call raises. *)
Definition purgeUnreachable : World :=
  mkWorld bindings clock (NetworkError "connection refused")
    (Responded 200 threeFolders) (λ _, accepted) [0; 1; 2]%nat.

(** The listing is empty. *)
Definition emptyListing : World :=
  mkWorld bindings clock accepted (Responded 200 []) (λ _, accepted) [].

(** Three folders; the call deleting the second raises. *)
Definition secondRaises : World :=
  mkWorld bindings clock accepted (Responded 200 threeFolders)
    (λ i, if (i =? 1)%nat then NetworkError "connection reset" else accepted)
    [0; 1; 2]%nat.

End Sample.


(** * Properties *)

(** Membership in a trace given as an explicit list around known parts. *)
Ltac in_trace :=
  simpl in *;
  repeat (rewrite elem_of_app in * || rewrite elem_of_cons in *
          || rewrite elem_of_nil in *);
  intuition (try discriminate; eauto).

(** ** The writer of events *)

Lemma trace_emit_bind {A} (pre : list Event) (m : Async A) :
  trace (emit pre ;; m) = pre ++ trace m.
Proof. by destruct m. Qed.

Lemma completion_emit_bind {A} (pre : list Event) (m : Async A) :
  completion (emit pre ;; m) = completion m.
Proof. by destruct m. Qed.

Lemma preamble_no_fetch pre method url : preamble pre → Fetch method url ∉ pre.
Proof.
  intros Hpre Hin. unfold preamble in Hpre. rewrite Forall_forall in Hpre.
  destruct (Hpre _ Hin) as (? & ? & ? & _). done.
Qed.

Lemma preamble_no_cleanup pre level :
  preamble pre → Log level "Starting Perma-Cache folder cleanup" ∉ pre.
Proof.
  intros Hpre Hin. unfold preamble in Hpre. rewrite Forall_forall in Hpre.
  destruct (Hpre _ Hin) as (? & ? & [= _ <-] & Hne). done.
Qed.

Lemma preamble_app pre pre' : preamble pre → preamble pre' → preamble (pre ++ pre').
Proof. unfold preamble. rewrite Forall_app. auto. Qed.

Lemma preamble_nil : preamble [].
Proof. constructor. Qed.

Lemma preamble_cons level text evs :
  text ≠ "Starting Perma-Cache folder cleanup" → preamble evs →
  preamble (Log level text :: evs).
Proof. intros H Hevs. constructor; [by exists level, text|done]. Qed.

Ltac preamble_solver :=
  repeat first
    [ assumption
    | apply preamble_nil
    | apply preamble_cons; [by (simpl; discriminate)|]
    | apply preamble_app ].

Section Silent.
Context {A B : Type}.

Lemma silent_ret (a : A) : silent (mret a).
Proof. by split. Qed.

Lemma silent_bind (m : Async A) (f : A → Async B) :
  silent m → (∀ a, silent (f a)) → silent (m ≫= f).
Proof.
  destruct m as [[a|e|] t]; intros [Ht Hc] Hf; simpl in *; subst.
  - destruct (Hf a) as [Ht' Hc']. unfold mbind, Async_bind.
    destruct (f a) as [c t']. simpl in *. by subst.
  - by split.
  - done.
Qed.

(** A silent body either returns, and the [catch] is not entered, or throws
    and the whole is what the handler does. *)
Lemma try_catch_silent (m : Async A) (h : JsError → Async A) :
  silent m →
  (∃ a, try_catch m h = (Return a, [])) ∨ (∃ e, try_catch m h = h e).
Proof.
  destruct m as [[a|e|] t]; intros [Ht Hc]; simpl in *; subst.
  - left. eauto.
  - right. exists e. by destruct (h e).
  - done.
Qed.

End Silent.

Lemma silent_split v sep : silent (split v sep).
Proof. destruct v; by split. Qed.

(** ** Promise.all *)

Section Join.
Context {A : Type}.
Implicit Types (promises : list (Promise A)) (slots : list (option A)).
Implicit Types (order : list nat) (vals results : list A).

Lemma filled_Some slots results :
  filled slots = Some results → slots = Some <$> results.
Proof.
  revert results. induction slots as [|[a|] slots IH]; intros results; simpl.
  - by intros [= <-].
  - destruct (filled slots) as [r|] eqn:E; simpl; [|done].
    intros [= <-]. simpl. f_equal. by apply IH.
  - done.
Qed.

Lemma filled_None slots :
  filled slots = None → ∃ i, slots !! i = Some None.
Proof.
  induction slots as [|[a|] slots IH]; simpl; [done| |].
  - destruct (filled slots) eqn:E; simpl; [done|].
    intros _. destruct IH as [i Hi]; [done|]. by exists (S i).
  - intros _. by exists 0%nat.
Qed.

Lemma filled_lookup slots results i :
  filled slots = Some results → slots !! i ≠ Some None.
Proof.
  intros Hf%filled_Some. subst slots. rewrite list_lookup_fmap.
  by destruct (results !! i).
Qed.

Lemma agree_filled slots vals results :
  agree slots vals → filled slots = Some results → results = vals.
Proof.
  intros Hag Hf. apply filled_Some in Hf. subst slots.
  revert vals Hag. induction results as [|r results IH]; intros vals Hag.
  - by inversion Hag.
  - inversion Hag as [|? ? ? ? [?|[= ->]] Hrest]; subst; [done|].
    f_equal. by apply IH.
Qed.

Lemma agree_insert slots vals i a :
  agree slots vals → vals !! i = Some a → agree (<[i := Some a]> slots) vals.
Proof.
  intros Hag Hv. unfold agree in *.
  replace vals with (<[i := a]> vals) by by apply list_insert_id.
  apply Forall2_insert; auto.
Qed.

(** The slots still empty after slot [i] has been filled are those that were
    empty before, but for [i]; all of them are still to come in [rest]. *)
Lemma pending_after_insert slots i rest (x : option A) :
  (∀ j, slots !! j = Some None → j ∈ i :: rest) →
  x ≠ None →
  ∀ j, <[i := x]> slots !! j = Some None → j ∈ rest.
Proof.
  intros Hin Hx j Hj. destruct (decide (i = j)) as [->|Hne].
  - assert (j < List.length slots)%nat.
    { apply lookup_lt_Some in Hj. by rewrite length_insert in Hj. }
    rewrite list_lookup_insert_eq in Hj by done. congruence.
  - rewrite list_lookup_insert_ne in Hj by done.
    specialize (Hin j Hj). apply elem_of_cons in Hin as [->|]; done.
Qed.

(** A settlement that fills no slot leaves the empty slots to [rest]. *)
Lemma pending_after_skip promises slots i rest :
  List.length promises = List.length slots →
  (∀ j, slots !! j = Some None → j ∈ i :: rest) →
  promises !! i = None ∨ slots !! i ≠ Some None →
  ∀ j, slots !! j = Some None → j ∈ rest.
Proof.
  intros Hlen Hin Hi j Hj. specialize (Hin j Hj).
  apply elem_of_cons in Hin as [->|]; [|done].
  destruct Hi as [Hi|Hi]; [|done].
  apply lookup_lt_Some in Hj. apply lookup_ge_None in Hi. lia.
Qed.

(** When every promise is fulfilled and every one settles, the join is
    fulfilled with the values in the order of the promises, whatever the
    order of settlement. *)
Lemma settleAll_fulfilled promises vals order slots :
  Forall2 (λ p a, completion (settles p) = Return a) promises vals →
  agree slots vals →
  (∀ i, slots !! i = Some None → i ∈ order) →
  completion (settleAll promises order slots) = Return vals.
Proof.
  intros Hp. revert slots.
  induction order as [|i rest IH]; intros slots Hag Hin.
  - simpl. destruct (filled slots) as [results|] eqn:Hf.
    + simpl. f_equal. eauto using agree_filled.
    + apply filled_None in Hf as [i Hi]. apply Hin in Hi.
      by apply elem_of_nil in Hi.
  - simpl. destruct (filled slots) as [results|] eqn:Hf.
    { simpl. f_equal. eauto using agree_filled. }
    assert (Hlen : List.length promises = List.length slots).
    { apply Forall2_length in Hp, Hag. congruence. }
    assert (Hskip : promises !! i = None ∨ slots !! i ≠ Some None →
              completion (settleAll promises rest slots) = Return vals).
    { intros Hi. apply IH; [done|]. by eapply pending_after_skip. }
    destruct (promises !! i) as [p|] eqn:Hpi; [|by auto].
    destruct (slots !! i) as [[a|]|] eqn:Hsi; [by auto| |by auto].
    destruct (Forall2_lookup_l _ _ _ _ _ Hp Hpi) as (a & Hva & Hc).
    destruct (settles p) as [c t] eqn:Hs. simpl in Hc. subst c.
    unfold mbind, Async_bind.
    specialize (IH (<[i := Some a]> slots)).
    destruct (settleAll promises rest (<[i:=Some a]> slots)) as [c' t'] eqn:Hrec.
    simpl in *. apply IH; [by apply agree_insert|].
    by eapply pending_after_insert.
Qed.

(** What a promise writes when it settles is part of what has been written
    by the time the join is fulfilled. *)
Lemma settleAll_trace promises vals order slots i p :
  Forall2 (λ q a, completion (settles q) = Return a) promises vals →
  agree slots vals →
  (∀ j, slots !! j = Some None → j ∈ order) →
  promises !! i = Some p → slots !! i = Some None →
  trace (settles p) ⊆ trace (settleAll promises order slots).
Proof.
  intros Hp. revert slots.
  induction order as [|j rest IH]; intros slots Hag Hin Hpi Hsi.
  { apply Hin in Hsi. by apply elem_of_nil in Hsi. }
  simpl. destruct (filled slots) as [results|] eqn:Hf.
  { by eapply filled_lookup in Hf. }
  assert (Hlen : List.length promises = List.length slots).
  { apply Forall2_length in Hp, Hag. congruence. }
  assert (Hskip : promises !! j = None ∨ slots !! j ≠ Some None →
            trace (settles p) ⊆ trace (settleAll promises rest slots)).
  { intros Hj. apply IH; try done. by eapply pending_after_skip. }
  destruct (promises !! j) as [q|] eqn:Hpj; [|by auto].
  destruct (slots !! j) as [[a|]|] eqn:Hsj; [by auto| |by auto].
  destruct (Forall2_lookup_l _ _ _ _ _ Hp Hpj) as (a & Hva & Hc).
  destruct (settles q) as [c t] eqn:Hq. simpl in Hc. subst c.
  unfold mbind, Async_bind.
  destruct (decide (i = j)) as [->|Hne].
  - assert (q = p) as -> by congruence. rewrite Hq.
    destruct (settleAll promises rest (<[j:=Some a]> slots)) as [c' t'].
    simpl. intros x Hx. apply elem_of_app. by left.
  - specialize (IH (<[j := Some a]> slots)).
    destruct (settleAll promises rest (<[j:=Some a]> slots)) as [c' t'].
    simpl in *. intros x Hx. apply elem_of_app. right. revert x Hx.
    apply IH; try done.
    + by apply agree_insert.
    + by eapply pending_after_insert.
    + by rewrite list_lookup_insert_ne.
Qed.

(** When a promise that has still to settle is rejected, and every promise
    settles, the join is rejected. *)
Lemma settleAll_rejected promises order slots i p e t :
  List.length promises = List.length slots →
  Forall (λ q, completion (settles q) ≠ Pending) promises →
  (∀ j, slots !! j = Some None → j ∈ order) →
  promises !! i = Some p → slots !! i = Some None →
  settles p = (Throw e, t) →
  ∃ e', completion (settleAll promises order slots) = Throw e'.
Proof.
  intros Hlen Hnp. revert slots Hlen.
  induction order as [|j rest IH]; intros slots Hlen Hin Hpi Hsi Hs.
  { apply Hin in Hsi. by apply elem_of_nil in Hsi. }
  simpl. destruct (filled slots) as [results|] eqn:Hf.
  { by eapply filled_lookup in Hf. }
  assert (Hskip : promises !! j = None ∨ slots !! j ≠ Some None →
            ∃ e', completion (settleAll promises rest slots) = Throw e').
  { intros Hj. apply IH; try done. by eapply pending_after_skip. }
  destruct (promises !! j) as [q|] eqn:Hpj; [|by auto].
  destruct (slots !! j) as [[a|]|] eqn:Hsj; [by auto| |by auto].
  destruct (settles q) as [[a|e'|] t'] eqn:Hq.
  - assert (i ≠ j) by (intros ->; congruence).
    unfold mbind, Async_bind.
    destruct (IH (<[j := Some a]> slots)) as [e'' He'']; try done.
    + by rewrite length_insert.
    + by eapply pending_after_insert.
    + by rewrite list_lookup_insert_ne.
    + destruct (settleAll promises rest (<[j:=Some a]> slots)) as [c' t''].
      simpl in *. eauto.
  - simpl. eauto.
  - exfalso. apply list_elem_of_lookup_2 in Hpj.
    rewrite Forall_forall in Hnp. apply (Hnp q Hpj). by rewrite Hq.
Qed.

End Join.

(** ** deleteFolder and cleanupPermaCacheFolders *)

Section Cleanup.
Variable W : World.

Lemma deleteFolder_started i folder :
  started (deleteFolder W i folder) =
    [Log "info" ("Attempting to delete folder: " +:+ ObjectName folder);
     Fetch "DELETE" (folderUrl W folder)].
Proof. reflexivity. Qed.

Lemma deleteFolder_answered i folder st json :
  deleteAnswer W i = Responded st json →
  settles (deleteFolder W i folder) = (Return (ok st), [settleLog W i folder]).
Proof.
  intros H. unfold settleLog, deleteSucceeds, deleteFolder, async_await, fetch.
  rewrite H. simpl. by destruct (ok st).
Qed.

Lemma deleteFolder_raises i folder msg :
  deleteAnswer W i = NetworkError msg →
  settles (deleteFolder W i folder) = (Throw (mkError msg), []).
Proof.
  intros H. unfold deleteFolder, async_await, fetch. by rewrite H.
Qed.

Lemma deleteFolder_settles i folder :
  completion (settles (deleteFolder W i folder)) ≠ Pending.
Proof.
  destruct (deleteAnswer W i) as [st json|msg] eqn:H.
  - by erewrite deleteFolder_answered.
  - by erewrite deleteFolder_raises.
Qed.

(** Once the listing has been answered with success, the cleanup is the
    dispatch of all deletions followed by the join and the count. *)
Lemma cleanup_listed st folders :
  listAnswer W = Responded st folders → ok st = true →
  cleanupPermaCacheFolders W =
    try_catch
      (emit (listingEvents W ++ dispatchEvents W folders) ;;
       results ← Promise_all (imap (deleteFolder W) folders) (settleOrder W);
       log "info" "Cleanup completed" ;;
       mret (VStr (tallyString (List.length folders)
                     (List.length (List.filter Boolean results))
                     (List.length results
                      - List.length (List.filter Boolean results)))))
      (λ error, VResp <$> handleError error "Error in cleanupPermaCacheFolders:").
Proof.
  intros Hl Hok.
  unfold cleanupPermaCacheFolders, listPermaCacheFolders, await, fetch.
  rewrite Hl. simpl. rewrite Hok. simpl.
  unfold map_async, dispatchEvents. simpl.
  destruct (Promise_all _ _) as [[results|e|] t]; simpl;
    by rewrite ?app_nil_r, <-?app_assoc.
Qed.

Lemma promises_fulfil folders :
  answered W (List.length folders) →
  Forall2 (λ p a, completion (settles p) = Return a)
    (imap (deleteFolder W) folders) (deleteOutcomes W (List.length folders)).
Proof.
  intros Hans. apply Forall2_same_length_lookup_2.
  { unfold deleteOutcomes. by rewrite length_imap, length_fmap, length_seq. }
  intros i p a Hp Ha.
  rewrite list_lookup_imap in Hp.
  destruct (folders !! i) as [folder|] eqn:Hf; [|done].
  injection Hp as <-.
  unfold deleteOutcomes in Ha. rewrite list_lookup_fmap in Ha.
  destruct (seq 0 (List.length folders) !! i) as [j|] eqn:Hj; [|done].
  apply lookup_seq in Hj as [-> Hlt]. injection Ha as <-.
  destruct (Hans i Hlt) as (st & json & Hd).
  erewrite deleteFolder_answered by done. unfold deleteSucceeds. by rewrite Hd.
Qed.

Lemma filter_Boolean_fmap {A} (f : A → bool) (l : list A) :
  List.length (List.filter Boolean (f <$> l)) = List.length (List.filter f l).
Proof.
  induction l as [|x l IH]; [done|]. csimpl. unfold Boolean at 1.
  destruct (f x); csimpl; by rewrite IH.
Qed.

Lemma failures_le n : (failures W n ≤ n)%nat.
Proof.
  unfold failures.
  pose proof (List.filter_length_le (λ i, negb (deleteSucceeds W i)) (seq 0 n)) as H.
  by rewrite length_seq in H.
Qed.

Lemma successes_count n :
  List.length (List.filter (deleteSucceeds W) (seq 0 n)) = (n - failures W n)%nat.
Proof.
  unfold failures.
  pose proof (List.filter_length (deleteSucceeds W) (seq 0 n)) as H.
  rewrite length_seq in H. lia.
Qed.

Lemma deleted_count n :
  List.length (List.filter Boolean (deleteOutcomes W n)) = (n - failures W n)%nat.
Proof.
  unfold deleteOutcomes. rewrite filter_Boolean_fmap. apply successes_count.
Qed.

Lemma unsettled_in_order n order i :
  allSettle n order →
  replicate n (@None bool) !! i = Some None → i ∈ order.
Proof. intros Hall [_ Hi]%lookup_replicate. by apply Hall. Qed.

Lemma agree_initially n : agree (replicate n (@None bool)) (deleteOutcomes W n).
Proof.
  apply Forall2_same_length_lookup_2.
  - unfold deleteOutcomes. by rewrite length_replicate, length_fmap, length_seq.
  - intros i s a [-> _]%lookup_replicate _. by left.
Qed.

(** No deletion raises: the tally, after every deletion has settled. *)
Lemma cleanup_answered st folders :
  let n := List.length folders in
  listAnswer W = Responded st folders → ok st = true →
  answered W n → allSettle n (settleOrder W) →
  ∃ settled,
    cleanupPermaCacheFolders W =
      (Return (VStr (tallyString n (n - failures W n) (failures W n))),
       listingEvents W ++ dispatchEvents W folders ++ settled
       ++ [Log "info" "Cleanup completed"])
    ∧ ∀ i folder, folders !! i = Some folder → settleLog W i folder ∈ settled.
Proof.
  intros n Hl Hok Hans Hall.
  pose proof (promises_fulfil folders Hans) as Hp.
  pose proof (agree_initially n) as Hag.
  pose proof (settleAll_fulfilled _ _ (settleOrder W) _ Hp Hag
                (λ i, unsettled_in_order n _ i Hall)) as Hc.
  assert (Htr : ∀ i folder, folders !! i = Some folder →
            settleLog W i folder ∈
              trace (settleAll (imap (deleteFolder W) folders) (settleOrder W)
                       (replicate n None))).
  { intros i folder Hf.
    assert (Hlt : (i < n)%nat) by by eapply lookup_lt_Some.
    destruct (Hans i Hlt) as (st' & json & Hd).
    eapply (settleAll_trace _ _ (settleOrder W) _ i (deleteFolder W i folder) Hp Hag).
    - intros j. by apply unsettled_in_order.
    - by rewrite list_lookup_imap, Hf.
    - by apply lookup_replicate_2.
    - erewrite deleteFolder_answered by done. apply list_elem_of_here. }
  rewrite (cleanup_listed st folders Hl Hok).
  unfold Promise_all. rewrite length_imap. fold n.
  destruct (settleAll _ _ _) as [c settled]. simpl in Hc, Htr. subst c.
  exists settled. split; [|done].
  simpl. unfold deleteOutcomes at 2. rewrite length_fmap, length_seq.
  rewrite deleted_count. fold n.
  replace (n - (n - failures W n))%nat with (failures W n)
    by (pose proof (failures_le n); lia).
  reflexivity.
Qed.

(** A deletion raises: the join is rejected and the [catch] of the cleanup
    turns the error into what [handleError] returns. *)
Lemma cleanup_raised st folders i msg :
  let n := List.length folders in
  listAnswer W = Responded st folders → ok st = true →
  (i < n)%nat → deleteAnswer W i = NetworkError msg →
  allSettle n (settleOrder W) →
  ∃ e settled,
    cleanupPermaCacheFolders W =
      (Return (VResp (mkResponse HTTP_SERVER_ERROR
                        ("An error occurred: " +:+ message e))),
       listingEvents W ++ dispatchEvents W folders ++ settled
       ++ [Log "error" ("Error in cleanupPermaCacheFolders:" +:+ " " +:+ message e)]).
Proof.
  intros n Hl Hok Hlt Hd Hall.
  destruct (lookup_lt_is_Some_2 folders i Hlt) as [folder Hf].
  destruct (settleAll_rejected (imap (deleteFolder W) folders) (settleOrder W)
              (replicate n None) i (deleteFolder W i folder) (mkError msg) [])
    as [e He].
  - by rewrite length_imap, length_replicate.
  - apply Forall_forall. intros q [j Hq]%list_elem_of_lookup_1.
    apply list_lookup_imap_Some in Hq as (folder' & _ & ->).
    apply deleteFolder_settles.
  - intros j. by apply unsettled_in_order.
  - by rewrite list_lookup_imap, Hf.
  - by apply lookup_replicate_2.
  - by apply deleteFolder_raises.
  - rewrite (cleanup_listed st folders Hl Hok).
    unfold Promise_all. rewrite length_imap. fold n.
    destruct (settleAll _ _ _) as [c settled]. simpl in He. subst c.
    exists e, settled. simpl. by rewrite <-?app_assoc.
Qed.

Lemma dispatched folders folder :
  folder ∈ folders → Fetch "DELETE" (folderUrl W folder) ∈ dispatchEvents W folders.
Proof.
  intros [i Hi]%list_elem_of_lookup_1. unfold dispatchEvents.
  apply list_elem_of_join. exists (started (deleteFolder W i folder)). split.
  - rewrite deleteFolder_started. apply list_elem_of_further, list_elem_of_here.
  - apply list_elem_of_fmap. exists (deleteFolder W i folder). split; [done|].
    apply list_elem_of_lookup. exists i. by rewrite list_lookup_imap, Hi.
Qed.

(** Every listed folder's DELETE is issued, whatever the answers are. *)
Lemma cleanup_dispatches st folders folder :
  listAnswer W = Responded st folders → ok st = true →
  folder ∈ folders →
  Fetch "DELETE" (folderUrl W folder) ∈ trace (cleanupPermaCacheFolders W).
Proof.
  intros Hl Hok Hin. rewrite (cleanup_listed st folders Hl Hok).
  pose proof (dispatched folders folder Hin) as Hd.
  destruct (Promise_all _ _) as [[results|e|] t]; in_trace.
Qed.

Lemma cleanup_listing_refused st json :
  listAnswer W = Responded st json → ok st = false →
  cleanupPermaCacheFolders W =
    (Return (VResp (mkResponse HTTP_SERVER_ERROR
                      ("An error occurred: Failed to list Perma-Cache folders. Status: "
                       +:+ pretty st))),
     [Log "info" "Starting Perma-Cache folder cleanup";
      Fetch "GET" (permaCacheUrl W);
      Log "error" ("Error in cleanupPermaCacheFolders: Failed to list Perma-Cache folders. Status: "
                   +:+ pretty st)]).
Proof.
  intros Hl Hok.
  unfold cleanupPermaCacheFolders, listPermaCacheFolders, await, fetch.
  rewrite Hl. simpl. rewrite Hok. reflexivity.
Qed.

(** *** The legacy loop *)

Lemma deleteLoop_answered folders : ∀ index deletedCount failedCount,
  (∀ i, (index ≤ i < index + List.length folders)%nat →
        ∃ st json, deleteAnswer W i = Responded st json) →
  ∃ tr,
    Legacy.deleteLoop W index folders deletedCount failedCount =
      (Return
         ((deletedCount
           + List.length (List.filter (deleteSucceeds W)
                            (seq index (List.length folders))))%nat,
          (failedCount
           + List.length (List.filter (λ i, negb (deleteSucceeds W i))
                            (seq index (List.length folders))))%nat),
       tr).
Proof.
  induction folders as [|folder rest IH]; intros index d f Hans.
  - exists []. simpl. by rewrite !Nat.add_0_r.
  - destruct (Hans index) as (st & json & Hd); [simpl; lia|].
    assert (Hs : deleteSucceeds W index = ok st)
      by (unfold deleteSucceeds; by rewrite Hd).
    simpl. unfold await, fetch. rewrite Hd, Hs. simpl.
    destruct (ok st); simpl.
    + destruct (IH (S index) (S d) f) as [tr Htr].
      { intros i Hi. apply Hans. simpl. lia. }
      rewrite Htr. simpl. eexists. rewrite <-!Nat.add_succ_comm. reflexivity.
    + destruct (IH (S index) d (S f)) as [tr Htr].
      { intros i Hi. apply Hans. simpl. lia. }
      rewrite Htr. simpl. eexists. rewrite <-!Nat.add_succ_comm. reflexivity.
Qed.

Lemma legacy_cleanup_answered st folders :
  let n := List.length folders in
  listAnswer W = Responded st folders → ok st = true →
  answered W n →
  completion (Legacy.cleanupPermaCacheFolders W) =
    Return (VStr (tallyString n (n - failures W n) (failures W n))).
Proof.
  intros n Hl Hok Hans.
  destruct (deleteLoop_answered folders 0 0 0) as [tr Htr].
  { intros i Hi. apply Hans. unfold n. lia. }
  unfold Legacy.cleanupPermaCacheFolders, await, fetch.
  rewrite Hl. simpl. rewrite Hok. simpl. rewrite Htr. simpl.
  fold n. rewrite successes_count. reflexivity.
Qed.

End Cleanup.

(** ** The purge and the configuration check *)

Section Pipeline.
Variable W : World.

Lemma requireAll_present vars :
  (∀ v, v ∈ vars → is_Some (self W !! v)) → requireAll W vars = (Return tt, []).
Proof.
  induction vars as [|v vars IH]; intros H; simpl; [done|].
  destruct (H v) as [x ->]; [apply list_elem_of_here|].
  apply IH. intros u Hu. apply H. by apply list_elem_of_further.
Qed.

Lemma requireAll_absent vars v :
  v ∈ vars → self W !! v = None →
  ∃ missing, missing ∈ vars ∧ self W !! missing = None ∧
    requireAll W vars =
      (Throw (mkError ("Missing required environment variable: " +:+ missing)), []).
Proof.
  induction vars as [|u vars IH]; intros Hin Hv; [by apply elem_of_nil in Hin|].
  simpl. destruct (self W !! u) eqn:Hu.
  - apply elem_of_cons in Hin as [->|Hin]; [congruence|].
    destruct (IH Hin Hv) as (missing & ? & ? & ?). exists missing.
    split; [by apply list_elem_of_further|done].
  - exists u. split; [by apply list_elem_of_here|done].
Qed.

Lemma validate_configured :
  configured W →
  validateEnvironmentVariables W =
    (Return tt, [Log "info" "Checking environment variables";
                 Log "info" "All required environment variables are set"]).
Proof.
  intros H. unfold validateEnvironmentVariables.
  by rewrite (requireAll_present _ H).
Qed.

Lemma validate_missing varName :
  varName ∈ REQUIRED_ENV_VARS → self W !! varName = None →
  ∃ missing, missing ∈ REQUIRED_ENV_VARS ∧ self W !! missing = None ∧
    validateEnvironmentVariables W =
      (Throw (mkError ("Missing required environment variable: " +:+ missing)),
       [Log "info" "Checking environment variables"]).
Proof.
  intros Hin Hv. destruct (requireAll_absent _ _ Hin Hv) as (missing & ? & ? & Hr).
  exists missing. split; [done|]. split; [done|].
  unfold validateEnvironmentVariables. by rewrite Hr.
Qed.

Lemma configured_dec :
  configured W ∨ ∃ v, v ∈ REQUIRED_ENV_VARS ∧ self W !! v = None.
Proof.
  destruct (decide (Forall (λ v, is_Some (self W !! v)) REQUIRED_ENV_VARS)) as [H|H].
  - left. intros v Hv. rewrite Forall_forall in H. auto.
  - right. apply not_Forall_Exists in H; [|apply _].
    apply Exists_exists in H as (v & Hv & Hn). exists v. split; [done|].
    by apply eq_None_not_Some.
Qed.

Lemma purge_refused st json :
  purgeAnswer W = Responded st json → ok st = false →
  purgeBunnyCDNCache W =
    (Throw (mkError ("Failed to purge cache. Status: " +:+ pretty st)),
     [Log "info" "Purging BunnyCDN pull zone cache"; Fetch "POST" (purgeUrl W)]).
Proof.
  intros Hp Hok. unfold purgeBunnyCDNCache, await, fetch.
  rewrite Hp. simpl. by rewrite Hok.
Qed.

Lemma purge_accepted st json :
  purgeAnswer W = Responded st json → ok st = true →
  purgeBunnyCDNCache W =
    (Return tt,
     [Log "info" "Purging BunnyCDN pull zone cache"; Fetch "POST" (purgeUrl W);
      Log "info" ("Pull zone cache cleared for zone ID: "
                  +:+ toString (self_get W "BUNNY_PULLZONE_ID"))]).
Proof.
  intros Hp Hok. unfold purgeBunnyCDNCache, await, fetch.
  rewrite Hp. simpl. by rewrite Hok.
Qed.

(** The purge is called as soon as the tail of [handlePurgeFullCache] is
    entered. *)
Lemma purge_called :
  Fetch "POST" (purgeUrl W) ∈ trace (purgeThenCleanup W).
Proof.
  unfold purgeThenCleanup, purgeBunnyCDNCache, await, fetch.
  destruct (purgeAnswer W) as [st json|msg]; simpl; [|in_trace].
  destruct (ok st); simpl; [|in_trace].
  destruct (cleanupPermaCacheFolders W) as [[v|e|] t]; in_trace.
Qed.

(** The only response the tail of [handlePurgeFullCache] returns is its
    success response. *)
Lemma purgeThenCleanup_status r :
  completion (purgeThenCleanup W) = Return r → status r = HTTP_OK.
Proof.
  unfold purgeThenCleanup.
  destruct (purgeBunnyCDNCache W) as [[[]|e|] t]; simpl; try done.
  destruct (cleanupPermaCacheFolders W) as [[v|e|] t']; simpl; try done.
  by intros [= <-].
Qed.

Lemma purgeThenCleanup_refused st json :
  purgeAnswer W = Responded st json → ok st = false →
  purgeThenCleanup W =
    (Throw (mkError ("Failed to purge cache. Status: " +:+ pretty st)),
     [Log "info" "Purging BunnyCDN pull zone cache"; Fetch "POST" (purgeUrl W)]).
Proof.
  intros Hp Hok. unfold purgeThenCleanup. by rewrite (purge_refused st json).
Qed.

End Pipeline.

(** ** The handlers *)

Section Handler.
Variable hmacSha256Hex : string → string → string.
Variable W : World.

(** [verifySignature] never throws and never hangs, and writes at most the
    console line of its [catch]. *)
Lemma verifySignature_returns request :
  ∃ v t, verifySignature hmacSha256Hex W request = (Return v, t) ∧ preamble t.
Proof.
  unfold verifySignature.
  match goal with |- context [try_catch ?m ?h] =>
    destruct (try_catch_silent m h) as [(a & ->)|(e & ->)] end.
  - destruct (negb _); [apply silent_ret|].
    apply silent_bind; [apply silent_split|intros parts].
    apply silent_bind; [apply silent_split|intros hashParts].
    apply silent_bind; [apply silent_split|intros tsParts].
    repeat (match goal with |- silent (if ?b then _ else _) => destruct b end);
    apply silent_ret.
  - exists a, []. split; [done|]. constructor.
  - eexists _, _. split; [reflexivity|]. preamble_solver.
Qed.

(** The authorization of [handlePurgeFullCache]: either the request is
    denied with 403, or the purge and the cleanup run; until then only
    console lines have been written. *)
Lemma handlePurgeFullCache_cases request :
  ∃ pre, preamble pre ∧
    (handlePurgeFullCache hmacSha256Hex W request =
       (Return (mkResponse HTTP_FORBIDDEN "Invalid signature"), pre)
     ∨ handlePurgeFullCache hmacSha256Hex W request =
         (emit pre ;; purgeThenCleanup W)).
Proof.
  unfold handlePurgeFullCache.
  destruct (negb (strict_eq _ _)).
  - destruct (verifySignature_returns request) as (v & t & -> & Ht).
    destruct (truthy v) eqn:Hv.
    + exists ([Log "info" "Received token:";
               Log "info" "Verifying Ghost webhook signature"] ++ t
              ++ [Log "info" "Signature verified successfully"]).
      split; [preamble_solver|].
      right. destruct (purgeThenCleanup W) as [c t']. simpl.
      rewrite Hv. simpl. by rewrite <-?app_assoc.
    + exists ([Log "info" "Received token:";
               Log "info" "Verifying Ghost webhook signature"] ++ t
              ++ [Log "warn" "Invalid signature"]).
      split; [preamble_solver|].
      left. simpl. rewrite Hv. reflexivity.
  - exists [Log "info" "Received token:";
            Log "info" "Manual trigger token matched, skipping signature verification"].
    split; [preamble_solver|].
    right. by destruct (purgeThenCleanup W).
Qed.

Lemma preamble_routingLog : preamble routingLog.
Proof. unfold routingLog. preamble_solver. Qed.

Lemma handleRequest_configured request :
  configured W →
  handleRequest hmacSha256Hex W request =
    if String.eqb (pathname request) "/purge-full-cache"
    then emit routingLog ;; handlePurgeFullCache hmacSha256Hex W request
    else (Return (mkResponse HTTP_NOT_FOUND "Not Found"), routingLog).
Proof.
  intros Hc. unfold handleRequest. rewrite (validate_configured W Hc). simpl.
  destruct (String.eqb _ _); simpl; [|done].
  by destruct (handlePurgeFullCache _ _ _).
Qed.

Lemma handleRequest_missing request varName :
  varName ∈ REQUIRED_ENV_VARS → self W !! varName = None →
  ∃ missing, missing ∈ REQUIRED_ENV_VARS ∧ self W !! missing = None ∧
    handleRequest hmacSha256Hex W request =
      (Return (mkResponse HTTP_SERVER_ERROR
                 ("An error occurred: Missing required environment variable: "
                  +:+ missing)),
       [Log "info" "Worker started";
        Log "info" "Checking environment variables";
        Log "error" ("Error in handleRequest: Missing required environment variable: "
                     +:+ missing)]).
Proof.
  intros Hin Hv. destruct (validate_missing W _ Hin Hv) as (missing & ? & ? & Hr).
  exists missing. split; [done|]. split; [done|].
  unfold handleRequest. by rewrite Hr.
Qed.

(** Every request ends in one of two ways: it is answered before any call
    to the CDN (404, 403, or the 500 of a missing variable), or the purge
    and the cleanup run with only console lines before them. *)
Lemma handleRequest_cases request :
  ∃ pre, preamble pre ∧
    ((∃ r, handleRequest hmacSha256Hex W request = (Return r, pre))
     ∨ handleRequest hmacSha256Hex W request =
         (emit pre ;; purgeThenCleanup W)).
Proof.
  destruct (configured_dec W) as [Hc|(v & Hin & Hv)].
  - rewrite (handleRequest_configured request Hc).
    destruct (String.eqb _ _).
    + destruct (handlePurgeFullCache_cases request) as (pre & Hpre & [->| ->]).
      * exists (routingLog ++ pre).
        split; [by apply preamble_app; [apply preamble_routingLog|]|].
        left. eexists. reflexivity.
      * exists (routingLog ++ pre).
        split; [by apply preamble_app; [apply preamble_routingLog|]|].
        right. destruct (purgeThenCleanup W) as [c t]. simpl.
        by rewrite <-?app_assoc.
    + exists routingLog. split; [apply preamble_routingLog|]. left. eauto.
  - destruct (handleRequest_missing request v Hin Hv) as (missing & _ & _ & ->).
    eexists. split; [|left; eauto].
    preamble_solver.
Qed.

End Handler.

(** * The claims *)

(** Hypotheses over the first few positions of a concrete listing. *)
Ltac each_position tac :=
  let i := fresh "i" in
  let Hi := fresh "Hi" in
  intros i Hi; vm_compute in Hi;
  repeat (destruct i as [|i]; [solve [tac]|]; try (exfalso; lia)).

Ltac settles_in_order := each_position ltac:(compute_done).
Ltac all_answered := each_position ltac:(eexists _, _; reflexivity).

Section Claims.
Variable hmacSha256Hex : string → string → string.
Variable W : World.

(** C1 (the code departs from the claim).  A non-empty X-Ghost-Signature
    header that holds no [", "] has no timestamp part.  [verifySignature]
    does not return false on it: the [TypeError] of [timeStamp.split] is
    caught and the function returns the 500 response object of
    [handleError], which is truthy, so [handlePurgeFullCache] goes on,
    calls the purge endpoint, and can only answer with its success
    response. *)
Theorem unsplittable_signature_is_accepted request h :
  headers_get "X-Ghost-Signature" request = VStr h → h ≠ "" →
  List.length (JsString.split ", " h) = 1%nat →
  verifySignature hmacSha256Hex W request =
    (Return (VResp (mkResponse HTTP_SERVER_ERROR
       "An error occurred: Cannot read properties of undefined (reading 'split')")),
     [Log "error"
        "Error in verifySignature: Cannot read properties of undefined (reading 'split')"])
  ∧ Fetch "POST" (purgeUrl W) ∈ trace (handlePurgeFullCache hmacSha256Hex W request)
  ∧ (∀ r, completion (handlePurgeFullCache hmacSha256Hex W request) = Return r →
          status r = HTTP_OK).
Proof.
  intros Hh Hne Hlen.
  assert (Hv : verifySignature hmacSha256Hex W request =
    (Return (VResp (mkResponse HTTP_SERVER_ERROR
       "An error occurred: Cannot read properties of undefined (reading 'split')")),
     [Log "error"
        "Error in verifySignature: Cannot read properties of undefined (reading 'split')"])).
  { unfold verifySignature. rewrite Hh. simpl.
    apply String.eqb_neq in Hne. rewrite Hne. simpl.
    destruct (JsString.split ", " h) as [|piece [|? ?]]; try discriminate.
    reflexivity. }
  split; [done|].
  unfold handlePurgeFullCache. rewrite Hv.
  pose proof (purge_called W) as Hp.
  pose proof (purgeThenCleanup_status W) as Hs.
  destruct (negb (strict_eq _ _)); destruct (purgeThenCleanup W) as [c t];
    (split; [in_trace|exact Hs]).
Qed.

(** An absent (or empty) header is rejected, and the request with it when it
    carries no bypass token. *)
Lemma absent_signature_is_denied request :
  truthy (headers_get "X-Ghost-Signature" request) = false →
  verifySignature hmacSha256Hex W request = (Return (VBool false), [])
  ∧ (strict_eq (headers_get "manualtriggertoken" request)
               (self_get W "MANUAL_TRIGGER_TOKEN") = false →
     handlePurgeFullCache hmacSha256Hex W request =
       (Return (mkResponse HTTP_FORBIDDEN "Invalid signature"),
        [Log "info" "Received token:";
         Log "info" "Verifying Ghost webhook signature";
         Log "warn" "Invalid signature"])).
Proof.
  intros Hh.
  assert (Hv : verifySignature hmacSha256Hex W request = (Return (VBool false), []))
    by (unfold verifySignature; by rewrite Hh).
  split; [done|]. intros Hno. unfold handlePurgeFullCache. by rewrite Hno, Hv.
Qed.

(** A header with both parts is rejected when the secret is empty or not
    bound. *)
Lemma unset_secret_is_rejected request h sigHash timeStamp rest :
  headers_get "X-Ghost-Signature" request = VStr h →
  JsString.split ", " h = sigHash :: timeStamp :: rest →
  truthy (self_get W "GHOST_WEBHOOK_SECRET") = false →
  verifySignature hmacSha256Hex W request = (Return (VBool false), []).
Proof.
  intros Hh Hsplit Hsecret. unfold verifySignature. rewrite Hh. simpl.
  destruct (String.eqb h "") eqn:Hne; [done|]. simpl.
  rewrite Hsplit. simpl. rewrite Hsecret. simpl.
  by destruct (match JsString.parseInt _ with Some _ => _ | None => _ end).
Qed.

(** The legacy [verifySignature] returns false on the same header: its
    [catch] ends in [return false]. *)
Lemma legacy_rejects_unsplittable_signature request h :
  headers_get "X-Ghost-Signature" request = VStr h → h ≠ "" →
  List.length (JsString.split ", " h) = 1%nat →
  completion (Legacy.verifySignature hmacSha256Hex W request) = Return (VBool false).
Proof.
  intros Hh Hne Hlen. unfold Legacy.verifySignature. rewrite Hh. simpl.
  apply String.eqb_neq in Hne. rewrite Hne. simpl.
  destruct (JsString.split ", " h) as [|piece [|? ?]]; try discriminate.
  reflexivity.
Qed.

(** C3 (the code departs from the claim).  When the purge has been called
    and accepted and the listing is answered with a non-success status, no
    DELETE is issued, but the client is answered 200: the cleanup returns
    the 500 response object of [handleError] and [handlePurgeFullCache]
    prints it into the body of its success response. *)
Theorem listing_failure_is_served_as_200 request st json st' json' :
  purgeAnswer W = Responded st json → ok st = true →
  listAnswer W = Responded st' json' → ok st' = false →
  Fetch "POST" (purgeUrl W) ∈ trace (handleRequest hmacSha256Hex W request) →
  onFetch hmacSha256Hex W request =
    Answer (mkResponse HTTP_OK
      "Full cache purge initiated successfully. Cleanup result: [object Response]")
  ∧ (∀ url, Fetch "DELETE" url ∉ trace (handleRequest hmacSha256Hex W request)).
Proof.
  intros Hp Hok Hl Hok' Hcall. unfold onFetch, respondWith.
  destruct (handleRequest_cases hmacSha256Hex W request)
    as (pre & Hpre & [[r Hr]| Hr]); rewrite Hr in *.
  - simpl in Hcall. by apply preamble_no_fetch in Hcall.
  - unfold purgeThenCleanup.
    rewrite (purge_accepted W st json Hp Hok).
    rewrite (cleanup_listing_refused W st' json' Hl Hok'). simpl.
    split; [done|].
    intros url [Hin|Hin]%elem_of_app; [by eapply preamble_no_fetch|].
    in_trace.
Qed.

(** C5.  When the purge is answered with a non-success status, the cleanup
    is never entered (its first console line is not written, no listing and
    no deletion is requested), and a request whose purge was called gets no
    success response: the promise of [handleRequest] is rejected with the
    purge error, which the runtime serves as a 500. *)
Theorem purge_failure_skips_cleanup request st json :
  purgeAnswer W = Responded st json → ok st = false →
  let run := handleRequest hmacSha256Hex W request in
  (∀ level, Log level "Starting Perma-Cache folder cleanup" ∉ trace run)
  ∧ (∀ url, (Fetch "GET" url ∉ trace run) ∧ (Fetch "DELETE" url ∉ trace run))
  ∧ (Fetch "POST" (purgeUrl W) ∈ trace run →
     onFetch hmacSha256Hex W request =
       WorkerException (mkError ("Failed to purge cache. Status: " +:+ pretty st))
     ∧ servedStatus (onFetch hmacSha256Hex W request) = Some HTTP_SERVER_ERROR).
Proof.
  intros Hp Hok run. unfold onFetch, respondWith. subst run.
  destruct (handleRequest_cases hmacSha256Hex W request)
    as (pre & Hpre & [[r ->]| ->]).
  - simpl. split_and!.
    + intros. by apply preamble_no_cleanup.
    + intros. split; by apply preamble_no_fetch.
    + intros Hin. by apply preamble_no_fetch in Hin.
  - rewrite (purgeThenCleanup_refused W st json Hp Hok). simpl.
    split_and!.
    + intros level [Hin|Hin]%elem_of_app; [by eapply preamble_no_cleanup|].
      in_trace.
    + intros url. split; (intros [Hin|Hin]%elem_of_app;
        [by eapply preamble_no_fetch|in_trace]).
    + done.
Qed.

(** C6 (amended).  For a request that does not carry the configured bypass
    token and whose signature timestamp is more than five minutes away from
    the clock, in either direction, [verifySignature] returns false and the
    request is denied with 403 before any call to the CDN, whatever the
    hash, the body and the secret are. *)
Theorem stale_signature_is_rejected request t :
  signatureTimestamp request = Some t →
  Z.abs (now W - t) > 5 * 60 * 1000 →
  strict_eq (headers_get "manualtriggertoken" request)
            (self_get W "MANUAL_TRIGGER_TOKEN") = false →
  verifySignature hmacSha256Hex W request = (Return (VBool false), [])
  ∧ handlePurgeFullCache hmacSha256Hex W request =
      (Return (mkResponse HTTP_FORBIDDEN "Invalid signature"),
       [Log "info" "Received token:";
        Log "info" "Verifying Ghost webhook signature";
        Log "warn" "Invalid signature"]).
Proof.
  intros Hts Hstale Hno.
  assert (Hv : verifySignature hmacSha256Hex W request = (Return (VBool false), [])).
  { unfold signatureTimestamp in Hts. unfold verifySignature.
    destruct (headers_get "X-Ghost-Signature" request) as [| | |h|]; try done.
    simpl. destruct (String.eqb h "") eqn:Hh; [done|]. simpl.
    destruct (JsString.split ", " h) as [|sigHash [|timeStamp rest]]; try done.
    simpl. rewrite Hts.
    apply Z.gtb_gt in Hstale. by rewrite Hstale. }
  split; [done|].
  unfold handlePurgeFullCache. by rewrite Hno, Hv.
Qed.

(** C7.  A request whose manualtriggertoken header equals the configured
    bypass token is allowed: [handlePurgeFullCache] is the two console lines
    of the bypass followed by the purge and the cleanup, and the purge is
    called.  The verifier plays no part: any other request with that token,
    whatever its signature header and body, and any digest function give
    the same run. *)
Theorem bypass_token_skips_verifier request token :
  headers_get "manualtriggertoken" request = VStr token →
  self_get W "MANUAL_TRIGGER_TOKEN" = VStr token →
  handlePurgeFullCache hmacSha256Hex W request =
    (emit [Log "info" "Received token:";
           Log "info" "Manual trigger token matched, skipping signature verification"] ;;
     purgeThenCleanup W)
  ∧ Fetch "POST" (purgeUrl W) ∈ trace (handlePurgeFullCache hmacSha256Hex W request)
  ∧ (∀ hmac' request',
       headers_get "manualtriggertoken" request' = VStr token →
       handlePurgeFullCache hmac' W request'
       = handlePurgeFullCache hmacSha256Hex W request).
Proof.
  intros Hh Hs.
  assert (Hbypass : ∀ hmac' request',
            headers_get "manualtriggertoken" request' = VStr token →
            handlePurgeFullCache hmac' W request' =
              (emit [Log "info" "Received token:";
                     Log "info" "Manual trigger token matched, skipping signature verification"] ;;
               purgeThenCleanup W)).
  { intros hmac' request' Hh'. unfold handlePurgeFullCache. rewrite Hh', Hs. simpl.
    rewrite String.eqb_refl. simpl. by destruct (purgeThenCleanup W). }
  split_and!.
  - by apply Hbypass.
  - rewrite (Hbypass _ _ Hh), trace_emit_bind.
    apply elem_of_app. right. apply purge_called.
  - intros hmac' request' Hh'. by rewrite (Hbypass _ _ Hh'), (Hbypass _ _ Hh).
Qed.

(** C8.  When one of the seven required variables is not bound, every
    request is answered 500 with the name of the first missing variable,
    and no call to the CDN has been made. *)
Theorem missing_configuration_is_500 request varName :
  varName ∈ REQUIRED_ENV_VARS → self W !! varName = None →
  ∃ missing tr,
    handleRequest hmacSha256Hex W request =
      (Return (mkResponse HTTP_SERVER_ERROR
                 ("An error occurred: Missing required environment variable: "
                  +:+ missing)), tr)
    ∧ missing ∈ REQUIRED_ENV_VARS ∧ self W !! missing = None
    ∧ (∀ method url, Fetch method url ∉ tr)
    ∧ servedStatus (onFetch hmacSha256Hex W request) = Some HTTP_SERVER_ERROR.
Proof.
  intros Hin Hv.
  destruct (handleRequest_missing hmacSha256Hex W request varName Hin Hv)
    as (missing & Hm & Hn & Hr).
  exists missing. eexists. split; [exact Hr|]. split_and!; try done.
  - intros method url. in_trace.
  - unfold onFetch, respondWith. by rewrite Hr.
Qed.

(** The method of the request is never read. *)
Lemma handleRequest_ignores_method request m :
  handleRequest hmacSha256Hex W (with_method m request)
  = handleRequest hmacSha256Hex W request.
Proof. reflexivity. Qed.

(** C9 (amended).  With every required variable bound, the answer depends
    on the path and not on the method: on /purge-full-cache the handler goes
    into [handlePurgeFullCache], on any other path it answers 404
    "Not Found", and the same request sent with any other method is handled
    the same. *)
Theorem routing_ignores_method request :
  configured W →
  (∀ m, handleRequest hmacSha256Hex W (with_method m request)
        = handleRequest hmacSha256Hex W request)
  ∧ (pathname request = "/purge-full-cache" →
     handleRequest hmacSha256Hex W request =
       (emit routingLog ;; handlePurgeFullCache hmacSha256Hex W request))
  ∧ (pathname request ≠ "/purge-full-cache" →
     handleRequest hmacSha256Hex W request =
       (Return (mkResponse HTTP_NOT_FOUND "Not Found"), routingLog)).
Proof.
  intros Hc. split; [intros m; apply handleRequest_ignores_method|].
  rewrite (handleRequest_configured hmacSha256Hex W request Hc).
  split.
  - intros ->. reflexivity.
  - intros Hne%String.eqb_neq. by rewrite Hne.
Qed.

End Claims.

Section CleanupClaims.
Variable W : World.

(** C2 (amended).  After a successful listing every folder's DELETE is
    issued, whatever the other deletions come to.  When every delete call
    is answered, each non-2xx answer is counted as failed and the tally is
    produced after every deletion has settled.  When a delete call raises,
    the cleanup produces no tally; the error does not leave
    [cleanupPermaCacheFolders]. *)
Theorem delete_failures_are_isolated st folders :
  let n := List.length folders in
  listAnswer W = Responded st folders → ok st = true →
  allSettle n (settleOrder W) →
  (∀ folder, folder ∈ folders →
     Fetch "DELETE" (folderUrl W folder) ∈ trace (cleanupPermaCacheFolders W))
  ∧ (answered W n →
     ∃ settled,
       cleanupPermaCacheFolders W =
         (Return (VStr (tallyString n (n - failures W n) (failures W n))),
          listingEvents W ++ dispatchEvents W folders ++ settled
          ++ [Log "info" "Cleanup completed"])
       ∧ ∀ i folder, folders !! i = Some folder → settleLog W i folder ∈ settled)
  ∧ (∀ i msg, (i < n)%nat → deleteAnswer W i = NetworkError msg →
     ∃ v, completion (cleanupPermaCacheFolders W) = Return v
          ∧ ∀ total deleted failed, v ≠ VStr (tallyString total deleted failed)).
Proof.
  intros n Hl Hok Hall. split_and!.
  - intros folder Hin. by eapply cleanup_dispatches.
  - intros Hans. by apply (cleanup_answered W st folders).
  - intros i msg Hlt Hd.
    destruct (cleanup_raised W st folders i msg Hl Hok Hlt Hd Hall)
      as (e & settled & ->).
    eexists. split; [reflexivity|]. done.
Qed.

(** C4 (amended).  For a listing of N folders whose delete calls are all
    answered, K of them with a non-success status, the cleanup returns the
    tally with total N, deleted N - K and failed K, in whatever order the
    deletions settle; deleted + failed = total. *)
Theorem cleanup_tally st folders N K :
  listAnswer W = Responded st folders → ok st = true →
  List.length folders = N →
  answered W N → failures W N = K →
  allSettle N (settleOrder W) →
  completion (cleanupPermaCacheFolders W)
    = Return (VStr (tallyString N (N - K) K))
  ∧ ((N - K) + K = N)%nat.
Proof.
  intros Hl Hok <- Hans <- Hall. split.
  - destruct (cleanup_answered W st folders Hl Hok Hans Hall) as (settled & -> & _).
    reflexivity.
  - pose proof (failures_le W (List.length folders)). lia.
Qed.

(** C10.  For a successfully listed folder sequence whose delete calls are
    all answered, the concurrent cleanup and the legacy sequential loop
    return the same string
    "Cleanup completed. Total folders: N, Deleted: D, Failed: F". *)
Theorem concurrent_cleanup_refines_legacy st folders :
  let n := List.length folders in
  listAnswer W = Responded st folders → ok st = true →
  answered W n → allSettle n (settleOrder W) →
  ∃ deleted failed,
    completion (cleanupPermaCacheFolders W)
      = Return (VStr (tallyString n deleted failed))
    ∧ completion (Legacy.cleanupPermaCacheFolders W)
      = Return (VStr (tallyString n deleted failed))
    ∧ tallyString n deleted failed =
        "Cleanup completed. Total folders: " +:+ pretty n +:+ ", Deleted: "
        +:+ pretty deleted +:+ ", Failed: " +:+ pretty failed.
Proof.
  intros n Hl Hok Hans Hall.
  exists (n - failures W n)%nat, (failures W n). split_and!.
  - destruct (cleanup_answered W st folders Hl Hok Hans Hall) as (settled & -> & _).
    reflexivity.
  - by apply (legacy_cleanup_answered W st folders).
  - reflexivity.
Qed.

End CleanupClaims.

(** * The claims on concrete worlds *)

Import Sample.

(** C1: the header "sha256=abc". *)
Lemma unsplittable_signature_is_accepted_witness :
  verifySignature digest twoOfThree unsplittable =
    (Return (VResp (mkResponse HTTP_SERVER_ERROR
       "An error occurred: Cannot read properties of undefined (reading 'split')")),
     [Log "error"
        "Error in verifySignature: Cannot read properties of undefined (reading 'split')"])
  ∧ Fetch "POST" (purgeUrl twoOfThree)
      ∈ trace (handlePurgeFullCache digest twoOfThree unsplittable)
  ∧ (∀ r, completion (handlePurgeFullCache digest twoOfThree unsplittable) = Return r →
          status r = HTTP_OK).
Proof.
  apply (unsplittable_signature_is_accepted digest twoOfThree unsplittable "sha256=abc");
    [reflexivity|discriminate|reflexivity].
Defined.

(** The whole answer to that request: 200, after the purge and three
    deletions. *)
Lemma unsplittable_signature_purges :
  onFetch digest twoOfThree unsplittable =
    Answer (mkResponse HTTP_OK
      "Full cache purge initiated successfully. Cleanup result: Cleanup completed. Total folders: 3, Deleted: 2, Failed: 1").
Proof. vm_compute. reflexivity. Qed.

(** A timestamp that is not a number passes line 101 ([NaN > 300000] is
    false): with a hash that fits, the signature is accepted at any time. *)
Lemma nan_timestamp_skips_replay_window :
  signatureTimestamp notANumber = None
  ∧ verifySignature digest twoOfThree notANumber = (Return (VBool true), []).
Proof. split; vm_compute; reflexivity. Qed.

(** C2: the deletion of [a] raises before the deletion of [b] is answered.
    The result is not the tally "2, 1, 1" but the response object of
    [handleError], and it is produced although [b], whose DELETE has been
    issued, has not settled. *)
Lemma raising_delete_aborts_tally :
  let run := cleanupPermaCacheFolders firstRaises in
  deleteAnswer firstRaises 0 = NetworkError "connection reset"
  ∧ completion run =
      Return (VResp (mkResponse HTTP_SERVER_ERROR
                       "An error occurred: connection reset"))
  ∧ completion run ≠ Return (VStr (tallyString 2 1 1))
  ∧ Fetch "DELETE" (folderUrl firstRaises (mkFolder "b")) ∈ trace run
  ∧ Log "info" "Deleted folder: b" ∉ trace run.
Proof.
  split_and!.
  - reflexivity.
  - vm_compute. reflexivity.
  - vm_compute. discriminate.
  - compute_done.
  - compute_done.
Qed.

Lemma delete_failures_are_isolated_witness :
  (∀ folder, folder ∈ threeFolders →
     Fetch "DELETE" (folderUrl twoOfThree folder)
       ∈ trace (cleanupPermaCacheFolders twoOfThree))
  ∧ (answered twoOfThree 3 →
     ∃ settled,
       cleanupPermaCacheFolders twoOfThree =
         (Return (VStr (tallyString 3 (3 - failures twoOfThree 3)
                          (failures twoOfThree 3))),
          listingEvents twoOfThree ++ dispatchEvents twoOfThree threeFolders
          ++ settled ++ [Log "info" "Cleanup completed"])
       ∧ ∀ i folder, threeFolders !! i = Some folder →
                     settleLog twoOfThree i folder ∈ settled)
  ∧ (∀ i msg, (i < 3)%nat → deleteAnswer twoOfThree i = NetworkError msg →
     ∃ v, completion (cleanupPermaCacheFolders twoOfThree) = Return v
          ∧ ∀ total deleted failed, v ≠ VStr (tallyString total deleted failed)).
Proof.
  apply (delete_failures_are_isolated twoOfThree 200 threeFolders);
    [reflexivity|reflexivity|settles_in_order].
Defined.

(** C3: bypass token, purge accepted, listing answered 503. *)
Lemma listing_failure_is_served_as_200_witness :
  onFetch digest listingDown manual =
    Answer (mkResponse HTTP_OK
      "Full cache purge initiated successfully. Cleanup result: [object Response]")
  ∧ (∀ url, Fetch "DELETE" url ∉ trace (handleRequest digest listingDown manual)).
Proof.
  apply (listing_failure_is_served_as_200 digest listingDown manual 200 [] 503 []);
    [reflexivity|reflexivity|reflexivity|reflexivity|compute_done].
Defined.

(** C4: one folder whose deletion fails by raising.  One of one deletions
    does not succeed, and the result is not the tally "1, 0, 1". *)
Lemma raising_delete_yields_no_tally :
  listAnswer onlyRaises = Responded 200 [mkFolder "a"]
  ∧ allSettle 1 (settleOrder onlyRaises)
  ∧ failures onlyRaises 1 = 1%nat
  ∧ completion (cleanupPermaCacheFolders onlyRaises)
    ≠ Return (VStr (tallyString 1 (1 - 1) 1)).
Proof.
  split_and!.
  - reflexivity.
  - settles_in_order.
  - reflexivity.
  - vm_compute. discriminate.
Qed.

Lemma cleanup_tally_witness :
  completion (cleanupPermaCacheFolders twoOfThree)
    = Return (VStr (tallyString 3 (3 - 1) 1))
  ∧ ((3 - 1) + 1 = 3)%nat.
Proof.
  apply (cleanup_tally twoOfThree 200 threeFolders 3 1);
    [reflexivity|reflexivity|reflexivity|all_answered|reflexivity
    |settles_in_order].
Defined.

(** C5: bypass token, purge answered 503. *)
Lemma purge_failure_skips_cleanup_witness :
  let run := handleRequest digest purgeDown manual in
  (∀ level, Log level "Starting Perma-Cache folder cleanup" ∉ trace run)
  ∧ (∀ url, (Fetch "GET" url ∉ trace run) ∧ (Fetch "DELETE" url ∉ trace run))
  ∧ (Fetch "POST" (purgeUrl purgeDown) ∈ trace run →
     onFetch digest purgeDown manual =
       WorkerException (mkError ("Failed to purge cache. Status: " +:+ pretty 503))
     ∧ servedStatus (onFetch digest purgeDown manual) = Some HTTP_SERVER_ERROR).
Proof.
  apply (purge_failure_skips_cleanup digest purgeDown manual 503 []);
    reflexivity.
Defined.

(** In that world the purge is called, and it is the last thing done. *)
Lemma purge_failure_trace :
  handleRequest digest purgeDown manual =
    (Throw (mkError "Failed to purge cache. Status: 503"),
     routingLog ++
     [Log "info" "Received token:";
      Log "info" "Manual trigger token matched, skipping signature verification";
      Log "info" "Purging BunnyCDN pull zone cache";
      Fetch "POST" "https://api.bunny.net/pullzone/42/purgeCache"]).
Proof. vm_compute. reflexivity. Qed.

(** C6: a signature three years old on a request that carries the bypass
    token.  The request is allowed: the purge is called and the answer
    is 200. *)
Lemma stale_signature_with_bypass_token_is_allowed :
  signatureTimestamp staleWithToken = Some 1600000000000
  ∧ Z.abs (now twoOfThree - 1600000000000) > 5 * 60 * 1000
  ∧ Fetch "POST" (purgeUrl twoOfThree)
      ∈ trace (handlePurgeFullCache digest twoOfThree staleWithToken)
  ∧ servedStatus (onFetch digest twoOfThree staleWithToken) = Some HTTP_OK.
Proof.
  split_and!.
  - vm_compute. reflexivity.
  - vm_compute. reflexivity.
  - compute_done.
  - vm_compute. reflexivity.
Qed.

Lemma stale_signature_is_rejected_witness :
  verifySignature digest twoOfThree stale = (Return (VBool false), [])
  ∧ handlePurgeFullCache digest twoOfThree stale =
      (Return (mkResponse HTTP_FORBIDDEN "Invalid signature"),
       [Log "info" "Received token:";
        Log "info" "Verifying Ghost webhook signature";
        Log "warn" "Invalid signature"]).
Proof.
  apply (stale_signature_is_rejected digest twoOfThree stale 1600000000000);
    [reflexivity|reflexivity|reflexivity].
Defined.

(** C7 *)
Lemma bypass_token_skips_verifier_witness :
  handlePurgeFullCache digest twoOfThree manual =
    (emit [Log "info" "Received token:";
           Log "info" "Manual trigger token matched, skipping signature verification"] ;;
     purgeThenCleanup twoOfThree)
  ∧ Fetch "POST" (purgeUrl twoOfThree)
      ∈ trace (handlePurgeFullCache digest twoOfThree manual)
  ∧ (∀ hmac' request',
       headers_get "manualtriggertoken" request' = VStr "letmein" →
       handlePurgeFullCache hmac' twoOfThree request'
       = handlePurgeFullCache digest twoOfThree manual).
Proof.
  apply (bypass_token_skips_verifier digest twoOfThree manual "letmein");
    reflexivity.
Defined.

(** C8 *)
Lemma missing_configuration_is_500_witness :
  ∃ missing tr,
    handleRequest digest unconfigured manual =
      (Return (mkResponse HTTP_SERVER_ERROR
                 ("An error occurred: Missing required environment variable: "
                  +:+ missing)), tr)
    ∧ missing ∈ REQUIRED_ENV_VARS ∧ self unconfigured !! missing = None
    ∧ (∀ method url, Fetch method url ∉ tr)
    ∧ servedStatus (onFetch digest unconfigured manual) = Some HTTP_SERVER_ERROR.
Proof.
  apply (missing_configuration_is_500 digest unconfigured manual "BUNNY_API_KEY");
    [compute_done|reflexivity].
Defined.

(** C9: nothing is bound and the path is "/".  The answer is the 500 of the
    configuration check, not 404. *)
Lemma unconfigured_unknown_path_is_500 :
  pathname elsewhere ≠ "/purge-full-cache"
  ∧ handleRequest digest unconfigured elsewhere =
      (Return (mkResponse HTTP_SERVER_ERROR
         "An error occurred: Missing required environment variable: GHOST_WEBHOOK_SECRET"),
       [Log "info" "Worker started";
        Log "info" "Checking environment variables";
        Log "error"
          "Error in handleRequest: Missing required environment variable: GHOST_WEBHOOK_SECRET"])
  ∧ servedStatus (onFetch digest unconfigured elsewhere) ≠ Some HTTP_NOT_FOUND.
Proof.
  split_and!.
  - discriminate.
  - vm_compute. reflexivity.
  - vm_compute. discriminate.
Qed.

Lemma routing_ignores_method_witness :
  (∀ m, handleRequest digest twoOfThree (with_method m elsewhere)
        = handleRequest digest twoOfThree elsewhere)
  ∧ (pathname elsewhere = "/purge-full-cache" →
     handleRequest digest twoOfThree elsewhere =
       (emit routingLog ;; handlePurgeFullCache digest twoOfThree elsewhere))
  ∧ (pathname elsewhere ≠ "/purge-full-cache" →
     handleRequest digest twoOfThree elsewhere =
       (Return (mkResponse HTTP_NOT_FOUND "Not Found"), routingLog)).
Proof.
  apply (routing_ignores_method digest twoOfThree elsewhere).
  intros varName Hin. unfold REQUIRED_ENV_VARS in Hin.
  repeat (apply elem_of_cons in Hin as [->|Hin]; [by eexists|]).
  by apply elem_of_nil in Hin.
Defined.

(** C10 *)
Lemma concurrent_cleanup_refines_legacy_witness :
  ∃ deleted failed,
    completion (cleanupPermaCacheFolders twoOfThree)
      = Return (VStr (tallyString 3 deleted failed))
    ∧ completion (Legacy.cleanupPermaCacheFolders twoOfThree)
      = Return (VStr (tallyString 3 deleted failed))
    ∧ tallyString 3 deleted failed =
        "Cleanup completed. Total folders: " +:+ pretty 3%nat +:+ ", Deleted: "
        +:+ pretty deleted +:+ ", Failed: " +:+ pretty failed.
Proof.
  apply (concurrent_cleanup_refines_legacy twoOfThree 200 threeFolders);
    [reflexivity|reflexivity|all_answered|settles_in_order].
Defined.

(** The two variants on that world, in full. *)
Lemma two_of_three_tally :
  completion (cleanupPermaCacheFolders twoOfThree)
    = Return (VStr "Cleanup completed. Total folders: 3, Deleted: 2, Failed: 1")
  ∧ completion (Legacy.cleanupPermaCacheFolders twoOfThree)
    = Return (VStr "Cleanup completed. Total folders: 3, Deleted: 2, Failed: 1").
Proof. split; vm_compute; reflexivity. Qed.


(** * Further properties *)

(** ** Strings: cutting and parsing what was put together *)

Lemma append_cons x (a b : string) : String x a +:+ b = String x (a +:+ b).
Proof. reflexivity. Qed.

Lemma append_nil_l (a : string) : "" +:+ a = a.
Proof. reflexivity. Qed.

Lemma append_assoc (a b c : string) : (a +:+ b) +:+ c = a +:+ (b +:+ c).
Proof.
  induction a as [|x a IH]; [done|]. rewrite !append_cons. by f_equal.
Qed.

Lemma append_nil_r (a : string) : a +:+ "" = a.
Proof. induction a as [|x a IH]; [done|]. rewrite append_cons. by f_equal. Qed.

Lemma lacks_append c a b : lacks c a → lacks c b → lacks c (a +:+ b).
Proof.
  induction a as [|x a IH]; [done|]. rewrite append_cons. simpl.
  intros [? ?] ?. auto.
Qed.

Section Split.
Variables (c0 : ascii) (sep' : string).
Let sep := String c0 sep'.

Lemma prefix_mismatch x s : x ≠ c0 → String.prefix sep (String x s) = false.
Proof.
  intros Hne. simpl. destruct (ascii_dec c0 x) as [->|]; [done|].
  done.
Qed.

Lemma prefix_append s : String.prefix sep' (sep' +:+ s) = true.
Proof.
  induction sep' as [|x t IH]; [by destruct s|].
  rewrite append_cons. simpl. destruct (ascii_dec x x); [|done]. apply IH.
Qed.

Lemma split_go_skip x b cur :
  JsString.split_go sep (x +:+ b) (String.length x) cur = JsString.split_go sep b 0 cur.
Proof.
  induction x as [|y x IH]; [by destruct b|].
  rewrite append_cons. simpl. exact IH.
Qed.

Lemma split_go_lacks s cur :
  lacks c0 s → JsString.split_go sep s 0 cur = [cur +:+ s].
Proof.
  revert cur. induction s as [|x s IH]; intros cur.
  - by rewrite append_nil_r.
  - intros [Hne Hs]. cbn [JsString.split_go].
    rewrite prefix_mismatch by done.
    rewrite IH by done. by rewrite append_assoc.
Qed.

Lemma split_go_at a b cur :
  lacks c0 a →
  JsString.split_go sep (a +:+ sep +:+ b) 0 cur
  = (cur +:+ a) :: JsString.split_go sep b 0 "".
Proof.
  revert cur. induction a as [|x a IH]; intros cur.
  - intros _. rewrite append_nil_r, append_nil_l. unfold sep.
    rewrite append_cons. cbn [JsString.split_go].
    assert (Hp : String.prefix (String c0 sep') (String c0 (sep' +:+ b)) = true).
    { simpl. destruct (ascii_dec c0 c0); [apply prefix_append|done]. }
    rewrite Hp. f_equal.
    replace (String.length (String c0 sep') - 1)%nat with (String.length sep')
      by (simpl; lia).
    apply split_go_skip.
  - intros [Hne Ha]. 
    rewrite append_cons.
    cbn [JsString.split_go]. rewrite prefix_mismatch by done.
    rewrite IH by done. by rewrite append_assoc.
Qed.
End Split.

Lemma split_two c0 sep' a b :
  lacks c0 a → lacks c0 b →
  JsString.split (String c0 sep') (a +:+ String c0 sep' +:+ b) = [a; b].
Proof.
  intros Ha Hb. unfold JsString.split. rewrite split_go_at by done.
  by rewrite split_go_lacks.
Qed.

Lemma digit_cases (d : N) :
  (d < 10)%N →
  d ∈ [0; 1; 2; 3; 4; 5; 6; 7; 8; 9]%N.
Proof.
  intros H.
  assert (d = 0 ∨ d = 1 ∨ d = 2 ∨ d = 3 ∨ d = 4 ∨ d = 5 ∨ d = 6 ∨ d = 7
          ∨ d = 8 ∨ d = 9)%N as Hd by lia.
  repeat (destruct Hd as [->|Hd]; [compute_done|]). subst. compute_done.
Qed.

Ltac by_digit d H :=
  let Hd := fresh in
  pose proof (digit_cases d H) as Hd;
  repeat (apply elem_of_cons in Hd as [->|Hd]; [try (vm_compute; done)|]);
  try (by apply elem_of_nil in Hd).

Lemma digit_value_pretty d :
  (d < 10)%N → JsString.digit_value (pretty_N_char d) = Some (Z.of_N d).
Proof. intros H. by_digit d H. Qed.

Lemma all_digits_go x : ∀ s, all_digits s → all_digits (pretty_N_go x s).
Proof.
  induction (N.lt_wf_0 x) as [x _ IH]; intros s Hs.
  assert (x = 0 ∨ 0 < x)%N as [->|Hx] by lia; [by rewrite pretty_N_go_0|].
  rewrite pretty_N_go_step by done. apply IH; [by apply N.div_lt|].
  split; [|done]. exists (x `mod` 10)%N. split; [|done].
  by apply N.mod_lt.
Qed.

Lemma parse_digits_go x : ∀ s,
  (0 < x)%N →
  JsString.parse_digits 10 (pretty_N_go x s) None
  = JsString.parse_digits 10 s (Some (Z.of_N x)).
Proof.
  induction (N.lt_wf_0 x) as [x _ IH]; intros s Hx.
  rewrite pretty_N_go_step by done.
  assert (Hd : (x `mod` 10 < 10)%N) by by apply N.mod_lt.
  destruct (decide (x `div` 10 = 0)%N) as [H0|Hpos%N.neq_0_lt_0].
  - rewrite H0, pretty_N_go_0. cbn [JsString.parse_digits].
    rewrite digit_value_pretty by done.
    replace (Z.of_N (x `mod` 10) <? 10) with true
      by (symmetry; apply Z.ltb_lt; by apply N2Z.inj_lt in Hd).
    simpl default. do 2 f_equal.
    pose proof (N.div_mod x 10). lia.
  - rewrite IH by (done || by apply N.div_lt).
    cbn [JsString.parse_digits].
    rewrite digit_value_pretty by done.
    replace (Z.of_N (x `mod` 10) <? 10) with true
      by (symmetry; apply Z.ltb_lt; by apply N2Z.inj_lt in Hd).
    simpl default. do 2 f_equal.
    pose proof (N.div_mod x 10). lia.
Qed.

Lemma all_digits_lacks c s :
  (∀ d, (d < 10)%N → pretty_N_char d ≠ c) → all_digits s → lacks c s.
Proof.
  intros Hc. induction s as [|x s IH]; [done|].
  intros [(d & Hd & ->) Hs]. split; auto.
Qed.

Lemma parseInt_digits s :
  all_digits s → s ≠ "" →
  JsString.parseInt s = JsString.parse_digits 10 s None.
Proof.
  destruct s as [|c s]; [done|]. intros [(d & Hd & ->) Hs] _.
  unfold JsString.parseInt.
  assert (Ht : JsString.trim_start (String (pretty_N_char d) s)
               = String (pretty_N_char d) s) by by_digit d Hd.
  rewrite Ht.
  assert (Hsg : JsString.strip_sign (String (pretty_N_char d) s)
               = (1, String (pretty_N_char d) s)) by by_digit d Hd.
  rewrite Hsg.
  assert (Hr : JsString.strip_radix (String (pretty_N_char d) s)
               = (10, String (pretty_N_char d) s)).
  { destruct s as [|c2 s]; [by by_digit d Hd|].
    destruct Hs as [(d2 & Hd2 & ->) _].
    by_digit d Hd; by_digit d2 Hd2. }
  rewrite Hr. by destruct (JsString.parse_digits _ _ _) as [[]|].
Qed.

Lemma pretty_N_digits (x : N) : all_digits (pretty x) ∧ pretty x ≠ "".
Proof.
  unfold pretty, pretty_N. case_decide as Hx.
  - split; [|done]. split; [|done]. exists 0%N. by split.
  - split; [by apply all_digits_go|].
    rewrite pretty_N_go_step by lia. intros Hempty.
    assert (Hlen : ∀ y s, (String.length s ≤ String.length (pretty_N_go y s))%nat).
    { intros y. induction (N.lt_wf_0 y) as [y _ IH]; intros s.
      assert (y = 0 ∨ 0 < y)%N as [->|?] by lia; [by rewrite pretty_N_go_0|].
      rewrite pretty_N_go_step by done.
      etrans; [|by eapply IH, N.div_lt]. simpl. lia. }
    specialize (Hlen (x `div` 10)%N (String (pretty_N_char (x `mod` 10)) "")).
    rewrite Hempty in Hlen. simpl in Hlen. lia.
Qed.

Lemma parseInt_pretty_N (x : N) : JsString.parseInt (pretty x) = Some (Z.of_N x).
Proof.
  destruct (pretty_N_digits x) as [Hd Hne].
  rewrite parseInt_digits by done.
  unfold pretty, pretty_N. case_decide as Hx; [by subst|].
  rewrite parse_digits_go by lia. done.
Qed.

Lemma pretty_Z_N (t : Z) : 0 ≤ t → pretty t = pretty (Z.to_N t).
Proof. intros H. destruct t as [|p|p]; [done|done|lia]. Qed.

(** The decimal text of a non-negative integer parses back to it. *)
Lemma parseInt_pretty (t : Z) : 0 ≤ t → JsString.parseInt (pretty t) = Some t.
Proof.
  intros H. rewrite pretty_Z_N by done. rewrite parseInt_pretty_N.
  f_equal. lia.
Qed.

Lemma pretty_lacks (c : ascii) (t : Z) :
  (∀ d, (d < 10)%N → pretty_N_char d ≠ c) → 0 ≤ t → lacks c (pretty t).
Proof.
  intros Hc H. rewrite pretty_Z_N by done.
  apply all_digits_lacks; [done|]. apply pretty_N_digits.
Qed.

Lemma is_hex_lacks c s :
  is_hex_char c = false → is_hex s = true → lacks c s.
Proof.
  intros Hc. induction s as [|x s IH]; [done|]. simpl.
  intros [Hx Hs]%andb_true_iff. split; [|auto].
  intros ->. congruence.
Qed.

(** ** The verifier on Ghost's header *)

Section Verify.
Variable hmacSha256Hex : string → string → string.
Variable W : World.

Lemma ghostSignature_parts hash t :
  lacks "," hash → lacks "=" hash → 0 ≤ t →
  ghostSignature hash t ≠ ""
  ∧ JsString.split ", " (ghostSignature hash t) = ["sha256=" +:+ hash; "t=" +:+ pretty t]
  ∧ JsString.split "=" ("sha256=" +:+ hash) = ["sha256"; hash]
  ∧ JsString.split "=" ("t=" +:+ pretty t) = ["t"; pretty t].
Proof.
  intros Hc He Ht. split_and!.
  - done.
  - apply split_two.
    + apply (lacks_append _ "sha256="); [by repeat split|done].
    + apply (lacks_append _ "t="); [by repeat split|].
      apply pretty_lacks; [|done]. intros d Hd. by_digit d Hd.
  - apply (split_two "=" "" "sha256" hash); [by repeat split|done].
  - apply (split_two "=" "" "t" (pretty t)); [by repeat split|].
    apply pretty_lacks; [|done]. intros d Hd. by_digit d Hd.
Qed.

(** On a header of Ghost's form the verifier is the three checks in turn. *)
Lemma verifySignature_wellformed request hash t :
  headers_get "X-Ghost-Signature" request = VStr (ghostSignature hash t) →
  lacks "," hash → lacks "=" hash → 0 ≤ t →
  verifySignature hmacSha256Hex W request =
    (Return (VBool
       (if Z.abs (now W - t) >? 5 * 60 * 1000 then false
        else match self W !! "GHOST_WEBHOOK_SECRET" with
             | Some secret =>
                 negb (String.eqb secret "")
                 && String.eqb (hmacSha256Hex secret (text request +:+ pretty t)) hash
             | None => false
             end)), []).
Proof.
  intros Hh Hc He Ht.
  destruct (ghostSignature_parts hash t Hc He Ht) as (Hne & Hs1 & Hs2 & Hs3).
  unfold verifySignature. rewrite Hh.
  cbn [truthy]. apply String.eqb_neq in Hne. rewrite Hne.
  cbn [negb split]. rewrite Hs1.
  cbn [fmap list_fmap mbind Async_bind mret Async_ret element lookup list_lookup default id split].
  rewrite Hs2, Hs3.
  cbn [fmap list_fmap mbind Async_bind mret Async_ret element lookup list_lookup default id toString].
  rewrite (parseInt_pretty t Ht).
  destruct (Z.abs (now W - t) >? 5 * 60 * 1000); [reflexivity|].
  unfold self_get. destruct (self W !! "GHOST_WEBHOOK_SECRET") as [secret|]; [|reflexivity].
  cbn [truthy toString]. destruct (String.eqb secret ""); reflexivity.
Qed.
End Verify.

Section VerifyProps.
Variable hmacSha256Hex : string → string → string.
Variable W : World.

Lemma hex_lacks_comma s : is_hex s = true → lacks "," s.
Proof. by apply is_hex_lacks. Qed.

Lemma hex_lacks_equals s : is_hex s = true → lacks "=" s.
Proof. by apply is_hex_lacks. Qed.

(** X1. A request signed the way Ghost signs it is verified: when the
    header is [sha256=<digest>, t=<t>] with the digest the HMAC of the body
    followed by the decimal timestamp under the configured, non-empty secret,
    and the timestamp is within five minutes of the clock, [verifySignature]
    returns [true] without a console line, and [handlePurgeFullCache] goes on
    to the purge call. *)
Theorem signed_request_is_verified request secret t :
  let digest := hmacSha256Hex secret (text request +:+ pretty t) in
  headers_get "X-Ghost-Signature" request = VStr (ghostSignature digest t) →
  is_hex digest = true →
  self W !! "GHOST_WEBHOOK_SECRET" = Some secret → secret ≠ "" →
  0 ≤ t → Z.abs (now W - t) ≤ 5 * 60 * 1000 →
  verifySignature hmacSha256Hex W request = (Return (VBool true), [])
  ∧ Fetch "POST" (purgeUrl W) ∈ trace (handlePurgeFullCache hmacSha256Hex W request).
Proof.
  intros digest Hh Hhex Hs Hne Ht Hwin.
  assert (Hv : verifySignature hmacSha256Hex W request = (Return (VBool true), [])).
  { rewrite (verifySignature_wellformed hmacSha256Hex W request digest t Hh)
      by auto using hex_lacks_comma, hex_lacks_equals.
    rewrite Hs. apply String.eqb_neq in Hne. rewrite Hne.
    fold digest. rewrite String.eqb_refl.
    replace (Z.abs (now W - t) >? 5 * 60 * 1000) with false; [done|].
    symmetry. rewrite Z.gtb_ltb. apply Z.ltb_ge. lia. }
  split; [done|].
  unfold handlePurgeFullCache. rewrite Hv.
  pose proof (purge_called W) as Hp.
  destruct (negb (strict_eq _ _)); destruct (purgeThenCleanup W) as [c tr];
    in_trace.
Qed.

(** X2. A well-formed header whose hash is not the HMAC of the body and
    timestamp under the configured secret is refused: [verifySignature]
    returns [false], and without the manual token [handlePurgeFullCache]
    answers 403 "Invalid signature" after three console lines and no call. *)
Theorem forged_hash_is_refused request hash t :
  headers_get "X-Ghost-Signature" request = VStr (ghostSignature hash t) →
  is_hex hash = true → 0 ≤ t →
  (∀ secret, self W !! "GHOST_WEBHOOK_SECRET" = Some secret →
             hmacSha256Hex secret (text request +:+ pretty t) ≠ hash) →
  strict_eq (headers_get "manualtriggertoken" request)
            (self_get W "MANUAL_TRIGGER_TOKEN") = false →
  verifySignature hmacSha256Hex W request = (Return (VBool false), [])
  ∧ handlePurgeFullCache hmacSha256Hex W request =
      (Return (mkResponse HTTP_FORBIDDEN "Invalid signature"),
       [Log "info" "Received token:";
        Log "info" "Verifying Ghost webhook signature";
        Log "warn" "Invalid signature"]).
Proof.
  intros Hh Hhex Ht Hforged Hno.
  assert (Hv : verifySignature hmacSha256Hex W request = (Return (VBool false), [])).
  { rewrite (verifySignature_wellformed hmacSha256Hex W request hash t Hh)
      by auto using hex_lacks_comma, hex_lacks_equals.
    destruct (Z.abs (now W - t) >? 5 * 60 * 1000); [done|].
    destruct (self W !! "GHOST_WEBHOOK_SECRET") as [secret|] eqn:Hs; [|done].
    specialize (Hforged secret eq_refl). apply String.eqb_neq in Hforged.
    rewrite Hforged. by rewrite andb_false_r. }
  split; [done|]. unfold handlePurgeFullCache. by rewrite Hno, Hv.
Qed.

(** X3. [verifySignature] returns [true] only if the header is present
    and splits at ", " into at least two parts, the secret is bound and not
    empty, the hash part equals the HMAC of the body followed by the
    timestamp part, and the timestamp, when it parses as a number, is within
    five minutes of the clock. *)
Theorem verified_means_digest_matches request tr :
  verifySignature hmacSha256Hex W request = (Return (VBool true), tr) →
  ∃ h sigHash timeStamp rest secret,
    headers_get "X-Ghost-Signature" request = VStr h
    ∧ JsString.split ", " h = sigHash :: timeStamp :: rest
    ∧ self W !! "GHOST_WEBHOOK_SECRET" = Some secret ∧ secret ≠ ""
    ∧ (let ts := element 1 (VStr <$> JsString.split "=" timeStamp) in
       element 1 (VStr <$> JsString.split "=" sigHash)
         = VStr (hmacSha256Hex secret (text request +:+ toString ts))
       ∧ ∀ t, JsString.parseInt (toString ts) = Some t →
              Z.abs (now W - t) ≤ 5 * 60 * 1000).
Proof.
  unfold verifySignature, headers_get.
  destruct (headers request !! lower "X-Ghost-Signature") as [h|] eqn:Hh;
    cbn [truthy negb]; [|by intros [=]].
  destruct (String.eqb h "") eqn:Hne; cbn [negb]; [by intros [=]|].
  cbn [split mbind Async_bind mret Async_ret].
  destruct (JsString.split ", " h) as [|sigHash [|timeStamp rest]] eqn:Hs;
    cbn [fmap list_fmap element lookup list_lookup default id split
         mbind Async_bind mret Async_ret throw try_catch handleError log emit];
    try (by intros [=]).
  set (ts := element 1 (VStr <$> JsString.split "=" timeStamp)).
  destruct (JsString.parseInt (toString ts)) as [t|] eqn:Hp.
  - destruct (Z.abs (now W - t) >? 5 * 60 * 1000) eqn:Hw;
      cbn [try_catch]; [by intros [=]|].
    unfold self_get.
    destruct (self W !! "GHOST_WEBHOOK_SECRET") as [secret|] eqn:Hsec;
      cbn [truthy negb try_catch]; [|by intros [=]].
    destruct (String.eqb secret "") eqn:Hse; cbn [negb try_catch toString];
      [by intros [=]|].
    intros [= Heq _].
    exists h, sigHash, timeStamp, rest, secret. split_and!; try done.
    + by apply String.eqb_neq.
    + fold ts. destruct (element 1 (VStr <$> JsString.split "=" sigHash));
        try discriminate. cbn [strict_eq] in Heq.
      apply String.eqb_eq in Heq. by subst.
    + fold ts. intros t' Ht'. rewrite Hp in Ht'. injection Ht' as <-.
      rewrite Z.gtb_ltb in Hw. apply Z.ltb_ge in Hw. lia.
  - cbn [try_catch]. unfold self_get.
    destruct (self W !! "GHOST_WEBHOOK_SECRET") as [secret|] eqn:Hsec;
      cbn [truthy negb try_catch]; [|by intros [=]].
    destruct (String.eqb secret "") eqn:Hse; cbn [negb try_catch toString];
      [by intros [=]|].
    intros [= Heq _].
    exists h, sigHash, timeStamp, rest, secret. split_and!; try done.
    + by apply String.eqb_neq.
    + fold ts. destruct (element 1 (VStr <$> JsString.split "=" sigHash));
        try discriminate. cbn [strict_eq] in Heq.
      apply String.eqb_eq in Heq. by subst.
    + fold ts. intros t' Ht'. congruence.
Qed.

(** X4. [verifySignature] never rejects and never stays pending: it
    resolves either with a boolean and no console line, or, when something
    was thrown inside its [try], with the 500 response of [handleError] after
    the one line "Error in verifySignature: <message>". *)
Theorem verifySignature_outcomes request :
  ∃ v tr,
    verifySignature hmacSha256Hex W request = (Return v, tr)
    ∧ ((∃ b, v = VBool b ∧ tr = [])
       ∨ (∃ msg, v = VResp (mkResponse HTTP_SERVER_ERROR ("An error occurred: " +:+ msg))
                 ∧ tr = [Log "error" ("Error in verifySignature:" +:+ " " +:+ msg)])).
Proof.
  unfold verifySignature, headers_get.
  destruct (headers request !! lower "X-Ghost-Signature") as [h|];
    cbn [truthy negb]; [|eexists _, _; split; [reflexivity|left; eauto]].
  destruct (String.eqb h ""); cbn [negb];
    [eexists _, _; split; [reflexivity|left; eauto]|].
  cbn [split mbind Async_bind mret Async_ret].
  assert (Hsplit : ∀ v sep,
            (∃ parts, split v sep = (Return parts, []))
            ∨ (∃ e, split v sep = (Throw e, []))).
  { intros v sep. destruct v; cbn [split]; eauto. }
  destruct (Hsplit (element 0 (VStr <$> JsString.split ", " h)) "=")
    as [[hashParts ->]|[e ->]];
    [|eexists _, _; split; [reflexivity|right; destruct e; eauto]].
  destruct (Hsplit (element 1 (VStr <$> JsString.split ", " h)) "=")
    as [[tsParts ->]|[e ->]];
    [|eexists _, _; split; [reflexivity|right; destruct e; eauto]].
  cbn [mbind Async_bind].
  repeat (match goal with
          | |- context [if ?b then _ else _] => destruct b
          end; cbn [try_catch mret Async_ret app]);
    eexists _, _; (split; [reflexivity|left; eauto]).
Qed.
End VerifyProps.

(** ** The calls of the cleanup *)

Lemma fetches_app tr tr' : fetches (tr ++ tr') = fetches tr ++ fetches tr'.
Proof. apply List.filter_app. Qed.

Lemma fetches_log level text tr : fetches (Log level text :: tr) = fetches tr.
Proof. reflexivity. Qed.

Lemma fetches_fetch method url tr :
  fetches (Fetch method url :: tr) = Fetch method url :: fetches tr.
Proof. reflexivity. Qed.

Lemma fetches_preamble pre : preamble pre → fetches pre = [].
Proof.
  induction 1 as [|e pre (level & text & -> & _) _ IH]; [done|exact IH].
Qed.

Section JoinQuiet.
Context {A : Type}.

Lemma settleAll_fetches (promises : list (Promise A)) order : ∀ slots,
  Forall (λ p, fetches (trace (settles p)) = []) promises →
  fetches (trace (settleAll promises order slots)) = [].
Proof.
  induction order as [|i rest IH]; intros slots Hq; simpl.
  - by destruct (filled slots).
  - destruct (filled slots); [done|].
    destruct (promises !! i) as [p|] eqn:Hp; [|by apply IH].
    destruct (slots !! i) as [[a|]|]; [by apply IH| |by apply IH].
    rewrite Forall_forall in Hq.
    pose proof (Hq p (list_elem_of_lookup_2 _ _ _ Hp)) as Hpq.
    destruct (settles p) as [[a|e|] t]; simpl in *; [|done|done].
    specialize (IH (<[i := Some a]> slots)).
    destruct (settleAll promises rest (<[i:=Some a]> slots)) as [c t'].
    simpl in *. rewrite fetches_app, Hpq, IH; [done|].
    by apply Forall_forall.
Qed.
End JoinQuiet.

Section CleanupCalls.
Variable W : World.

Lemma started_any_index (k : nat → nat) folders :
  started <$> imap (λ i, deleteFolder W (k i)) folders
  = (λ folder,
       [Log "info" ("Attempting to delete folder: " +:+ ObjectName folder);
        Fetch "DELETE" (folderUrl W folder)]) <$> folders.
Proof.
  revert k. induction folders as [|folder rest IH]; intros k; [done|].
  csimpl. f_equal. apply (IH (k ∘ S)).
Qed.

Lemma dispatch_fetches folders :
  fetches (dispatchEvents W folders)
  = (λ folder, Fetch "DELETE" (folderUrl W folder)) <$> folders.
Proof.
  unfold dispatchEvents.
  change (deleteFolder W) with (λ i, deleteFolder W (id i)).
  rewrite started_any_index.
  induction folders as [|folder rest IH]; [done|].
  csimpl. unfold fetches in *. simpl. by f_equal.
Qed.

Lemma deleteFolder_settles_quiet i folder :
  fetches (trace (settles (deleteFolder W i folder))) = [].
Proof.
  destruct (deleteAnswer W i) as [st json|msg] eqn:H.
  - erewrite deleteFolder_answered by done. unfold settleLog.
    by destruct (deleteSucceeds W i).
  - by erewrite deleteFolder_raises.
Qed.

Lemma join_fetches folders :
  fetches (trace (Promise_all (imap (deleteFolder W) folders) (settleOrder W))) = [].
Proof.
  apply settleAll_fetches, Forall_forall.
  intros p [i Hp]%list_elem_of_lookup_1.
  apply list_lookup_imap_Some in Hp as (folder & _ & ->).
  apply deleteFolder_settles_quiet.
Qed.

Lemma cleanup_fetches :
  fetches (trace (cleanupPermaCacheFolders W))
  = Fetch "GET" (permaCacheUrl W)
    :: match listAnswer W with
       | Responded st folders =>
           if ok st
           then (λ folder, Fetch "DELETE" (folderUrl W folder)) <$> folders
           else []
       | NetworkError _ => []
       end.
Proof.
  destruct (listAnswer W) as [st folders|msg] eqn:Hl.
  - destruct (ok st) eqn:Hok.
    + rewrite (cleanup_listed W st folders Hl Hok).
      pose proof (join_fetches folders) as Hq.
      destruct (Promise_all _ _) as [[results|e|] t];
        cbn -[fetches listingEvents] in Hq |- *;
        rewrite ?app_nil_r, !fetches_app, dispatch_fetches, ?fetches_app, Hq;
        by rewrite ?app_nil_r.
    + by rewrite (cleanup_listing_refused W st folders Hl Hok).
  - unfold cleanupPermaCacheFolders, listPermaCacheFolders, await, fetch.
    by rewrite Hl.
Qed.

(** X9. After a successful listing the outgoing calls of the cleanup are
    the listing GET followed by exactly one DELETE per listed folder, in
    listing order, whatever the answers to the deletions and the order in
    which they settle. *)
Theorem one_delete_per_listed_folder st folders :
  listAnswer W = Responded st folders → ok st = true →
  fetches (trace (cleanupPermaCacheFolders W))
  = Fetch "GET" (permaCacheUrl W)
    :: ((λ folder, Fetch "DELETE" (folderUrl W folder)) <$> folders).
Proof. intros Hl Hok. by rewrite cleanup_fetches, Hl, Hok. Qed.

Lemma fetches_elem e tr : e ∈ fetches tr ↔ e ∈ tr ∧ is_fetch e = true.
Proof. unfold fetches. rewrite !list_elem_of_In. apply List.filter_In. Qed.

(** X16. The cleanup never deletes what was not listed: every DELETE it
    issues is for a folder named by a successful listing. *)
Theorem only_listed_folders_are_deleted url :
  Fetch "DELETE" url ∈ trace (cleanupPermaCacheFolders W) →
  ∃ st folders folder,
    listAnswer W = Responded st folders ∧ ok st = true
    ∧ folder ∈ folders ∧ url = folderUrl W folder.
Proof.
  intros Hin.
  assert (Hf : Fetch "DELETE" url ∈ fetches (trace (cleanupPermaCacheFolders W)))
    by by apply fetches_elem.
  rewrite cleanup_fetches in Hf. apply elem_of_cons in Hf as [[=]|Hf].
  destruct (listAnswer W) as [st folders|msg]; [|by apply elem_of_nil in Hf].
  destruct (ok st) eqn:Hok; [|by apply elem_of_nil in Hf].
  apply list_elem_of_fmap in Hf as (folder & [= ->] & Hfolder).
  by exists st, folders, folder.
Qed.

(** X10. With a successful but empty listing the cleanup makes the one GET
    and no DELETE, and returns the tally 0/0/0, whatever the order of
    settlement handed to [Promise.all]. *)
Theorem empty_listing_tally st :
  listAnswer W = Responded st [] → ok st = true →
  cleanupPermaCacheFolders W =
    (Return (VStr "Cleanup completed. Total folders: 0, Deleted: 0, Failed: 0"),
     listingEvents W ++ [Log "info" "Cleanup completed"]).
Proof.
  intros Hl Hok. rewrite (cleanup_listed W st [] Hl Hok).
  unfold Promise_all. by destruct (settleOrder W).
Qed.
End CleanupCalls.

(** ** The handlers *)

Section Validation.
Variable W : World.

Lemma requireAll_first vars e tr :
  requireAll W vars = (Throw e, tr) →
  ∃ before missing after,
    vars = before ++ missing :: after
    ∧ Forall (λ v, is_Some (self W !! v)) before
    ∧ self W !! missing = None
    ∧ message e = "Missing required environment variable: " +:+ missing.
Proof.
  induction vars as [|v vars IH]; simpl; [by intros [=]|].
  destruct (self W !! v) as [x|] eqn:Hv.
  - intros (before & missing & after & -> & Hb & Hm & He)%IH.
    exists (v :: before), missing, after. split_and!; try done.
    constructor; [by eexists|done].
  - intros [= <- _]. exists [], v, vars. by split_and!.
Qed.

(** X5. [validateEnvironmentVariables] returns exactly when all seven
    names are bound; when it throws, the name in the message is the first
    unbound one in the order of [REQUIRED_ENV_VARS]. *)
Theorem validation_reports_first_missing :
  (configured W ↔ completion (validateEnvironmentVariables W) = Return tt)
  ∧ ∀ e, completion (validateEnvironmentVariables W) = Throw e →
      ∃ before missing after,
        REQUIRED_ENV_VARS = before ++ missing :: after
        ∧ Forall (λ v, is_Some (self W !! v)) before
        ∧ self W !! missing = None
        ∧ message e = "Missing required environment variable: " +:+ missing.
Proof.
  split; [split|].
  - intros Hc. by rewrite validate_configured.
  - intros Hr. destruct (configured_dec W) as [Hc|(v & Hin & Hv)]; [done|].
    destruct (validate_missing W v Hin Hv) as (missing & _ & _ & Heq).
    rewrite Heq in Hr. discriminate.
  - intros e. unfold validateEnvironmentVariables.
    destruct (requireAll W REQUIRED_ENV_VARS) as [[[]|e'|] tr] eqn:Hr;
      simpl; try discriminate.
    intros [= <-]. by eapply requireAll_first.
Qed.
End Validation.

Section HandlerProps.
Variable hmacSha256Hex : string → string → string.
Variable W : World.

Lemma strict_eq_token request :
  strict_eq (headers_get "manualtriggertoken" request)
            (self_get W "MANUAL_TRIGGER_TOKEN") = true
  ↔ ∃ token, headers_get "manualtriggertoken" request = VStr token
             ∧ self W !! "MANUAL_TRIGGER_TOKEN" = Some token.
Proof.
  unfold headers_get, self_get.
  destruct (headers request !! _) as [h|];
    destruct (self W !! "MANUAL_TRIGGER_TOKEN") as [s|]; simpl.
  - rewrite String.eqb_eq. split; [intros ->; eauto|].
    by intros (token & [= ->] & [= ->]).
  - split; [done|]. by intros (? & _ & ?).
  - split; [done|]. by intros (? & ? & _).
  - split; [done|]. by intros (? & ? & _).
Qed.

(** X6. [handlePurgeFullCache] skips the verifier exactly when the
    [manualtriggertoken] header is present and equal to the bound
    [MANUAL_TRIGGER_TOKEN]: its second console line is the bypass line in
    that case and "Verifying Ghost webhook signature" in every other. *)
Theorem manual_trigger_iff_token_matches request :
  let second := trace (handlePurgeFullCache hmacSha256Hex W request) !! 1%nat in
  let matched := ∃ token, headers_get "manualtriggertoken" request = VStr token
                          ∧ self W !! "MANUAL_TRIGGER_TOKEN" = Some token in
  (matched ↔ second = Some (Log "info"
               "Manual trigger token matched, skipping signature verification"))
  ∧ (¬ matched ↔ second = Some (Log "info" "Verifying Ghost webhook signature")).
Proof.
  intros second matched. subst second matched. unfold handlePurgeFullCache.
  destruct (strict_eq _ _) eqn:Heq.
  - apply strict_eq_token in Heq.
    destruct (purgeThenCleanup W) as [c t]. simpl.
    split; (split; [done|]); [done|]. intros [=].
  - assert (Hn : ¬ ∃ token, headers_get "manualtriggertoken" request = VStr token
                            ∧ self W !! "MANUAL_TRIGGER_TOKEN" = Some token).
    { intros Hm%strict_eq_token. congruence. }
    destruct (verifySignature_returns hmacSha256Hex W request) as (v & t & -> & _).
    simpl. destruct (truthy v) eqn:Hv; simpl; rewrite ?Hv; simpl;
      [destruct (purgeThenCleanup W); simpl|];
      (split; split; [done|intros [=]|done|done]).
Qed.

(** X7. Whenever [handleRequest] resolves with a response whose status is
    not 200 (404, 403 or the 500 of its own [catch]), it has made no outgoing
    call at all. *)
Theorem refusal_makes_no_call request r tr :
  handleRequest hmacSha256Hex W request = (Return r, tr) →
  status r ≠ HTTP_OK →
  fetches tr = [].
Proof.
  intros Hr Hst.
  destruct (handleRequest_cases hmacSha256Hex W request)
    as (pre & Hpre & [[r' Hr']| Hr']); rewrite Hr' in Hr.
  - injection Hr as <- <-. by apply fetches_preamble.
  - exfalso. apply Hst, (purgeThenCleanup_status W).
    rewrite <-(completion_emit_bind pre). by rewrite Hr.
Qed.

Lemma purgeThenCleanup_raised msg :
  purgeAnswer W = NetworkError msg →
  purgeThenCleanup W =
    (Throw (mkError msg),
     [Log "info" "Purging BunnyCDN pull zone cache"; Fetch "POST" (purgeUrl W)]).
Proof.
  intros Hp. unfold purgeThenCleanup, purgeBunnyCDNCache, await, fetch.
  by rewrite Hp.
Qed.

(** X8. When the purge call itself fails (the [fetch] rejects) the run
    makes at most that one call, the cleanup is never started, and the
    promise handed to [respondWith] is rejected with the error of the
    [fetch]: [purgeBunnyCDNCache] has no [catch], and [handleRequest] returns
    the promise of [handlePurgeFullCache] without awaiting it. *)
Theorem purge_network_error_skips_cleanup request msg :
  purgeAnswer W = NetworkError msg →
  let run := handleRequest hmacSha256Hex W request in
  (fetches (trace run) = [] ∨ fetches (trace run) = [Fetch "POST" (purgeUrl W)])
  ∧ (∀ level, Log level "Starting Perma-Cache folder cleanup" ∉ trace run)
  ∧ (Fetch "POST" (purgeUrl W) ∈ trace run →
     onFetch hmacSha256Hex W request = WorkerException (mkError msg)).
Proof.
  intros Hp run. subst run. unfold onFetch, respondWith.
  destruct (handleRequest_cases hmacSha256Hex W request)
    as (pre & Hpre & [[r ->]| ->]).
  - simpl. split_and!.
    + left. by apply fetches_preamble.
    + intros. by apply preamble_no_cleanup.
    + intros Hin. by apply preamble_no_fetch in Hin.
  - rewrite (purgeThenCleanup_raised msg Hp). simpl. split_and!.
    + right. by rewrite fetches_app, fetches_preamble.
    + intros level [Hin|Hin]%elem_of_app; [by eapply preamble_no_cleanup|].
      in_trace.
    + done.
Qed.

(** X11. An authorized run, end to end: when the purge and the listing are
    answered with success and every delete call is answered and settles, the
    client gets 200 with the tally in the body, and the outgoing calls are
    the purge POST, the listing GET and one DELETE per listed folder, in this
    order. *)
Theorem authorized_run_reports_tally request st json st' folders :
  let n := List.length folders in
  purgeAnswer W = Responded st json → ok st = true →
  listAnswer W = Responded st' folders → ok st' = true →
  answered W n → allSettle n (settleOrder W) →
  Fetch "POST" (purgeUrl W) ∈ trace (handleRequest hmacSha256Hex W request) →
  onFetch hmacSha256Hex W request =
    Answer (mkResponse HTTP_OK
              ("Full cache purge initiated successfully. Cleanup result: "
               +:+ tallyString n (n - failures W n) (failures W n)))
  ∧ fetches (trace (handleRequest hmacSha256Hex W request))
    = Fetch "POST" (purgeUrl W) :: Fetch "GET" (permaCacheUrl W)
      :: ((λ folder, Fetch "DELETE" (folderUrl W folder)) <$> folders).
Proof.
  intros n Hp Hok Hl Hok' Hans Hall Hcall. unfold onFetch, respondWith.
  pose proof (cleanup_fetches W) as Hf. rewrite Hl, Hok' in Hf.
  destruct (cleanup_answered W st' folders Hl Hok' Hans Hall) as (settled & Hc & _).
  destruct (handleRequest_cases hmacSha256Hex W request)
    as (pre & Hpre & [[r Hr]| Hr]); rewrite Hr in *.
  - simpl in Hcall. by apply preamble_no_fetch in Hcall.
  - unfold purgeThenCleanup. rewrite (purge_accepted W st json Hp Hok).
    destruct (cleanupPermaCacheFolders W) as [c tc].
    injection Hc as -> ->. cbn -[fetches] in Hf |- *. split; [done|].
    rewrite fetches_app, fetches_preamble by done.
    rewrite app_nil_l, fetches_log, fetches_fetch, fetches_log, app_nil_r.
    by rewrite Hf.
Qed.
End HandlerProps.

(** ** The legacy handler *)

Section LegacyProps.
Variable hmacSha256Hex : string → string → string.
Variable W : World.

(** The legacy verifier returns a boolean, always. *)
Lemma legacy_verifySignature_returns request :
  ∃ b tr, Legacy.verifySignature hmacSha256Hex W request = (Return (VBool b), tr)
          ∧ fetches tr = [].
Proof.
  unfold Legacy.verifySignature, headers_get.
  destruct (headers request !! lower "X-Ghost-Signature") as [h|];
    cbn [truthy negb]; [|by eexists _, _].
  destruct (String.eqb h ""); cbn [negb]; [by eexists _, _|].
  cbn [split mbind Async_bind mret Async_ret].
  assert (Hsplit : ∀ v sep,
            (∃ parts, split v sep = (Return parts, []))
            ∨ (∃ e, split v sep = (Throw e, []))).
  { intros v sep. destruct v; cbn [split]; eauto. }
  destruct (Hsplit (element 0 (VStr <$> JsString.split ", " h)) "=")
    as [[hashParts ->]|[e ->]]; [|by eexists _, _].
  destruct (Hsplit (element 1 (VStr <$> JsString.split ", " h)) "=")
    as [[tsParts ->]|[e ->]]; [|by eexists _, _].
  cbn [mbind Async_bind].
  repeat (match goal with
          | |- context [if ?b then _ else _] => destruct b
          end; cbn [try_catch mret Async_ret app]);
    by eexists _, _.
Qed.

(** Where the current verifier returns a boolean, the legacy one returns
    the same. *)
Lemma legacy_verifySignature_agrees request b tr :
  verifySignature hmacSha256Hex W request = (Return (VBool b), tr) →
  Legacy.verifySignature hmacSha256Hex W request = (Return (VBool b), []).
Proof.
  unfold verifySignature, Legacy.verifySignature.
  match goal with
  | |- try_catch ?m _ = _ → try_catch ?m' _ = _ =>
      change m' with m; assert (Hs : silent m)
  end.
  { destruct (negb _); [apply silent_ret|].
    apply silent_bind; [apply silent_split|intros parts].
    apply silent_bind; [apply silent_split|intros hashParts].
    apply silent_bind; [apply silent_split|intros tsParts].
    repeat (match goal with |- silent (if ?b then _ else _) => destruct b end);
    apply silent_ret. }
  match goal with
  | |- try_catch ?m _ = _ → _ => destruct m as [[v|e|] t]
  end; destruct Hs as [Ht Hc]; simpl in *; subst.
  - by intros [= -> <-].
  - intros [= ? ?].
  - done.
Qed.

Lemma requireAll_settles vars :
  requireAll W vars = (Return tt, []) ∨ ∃ e, requireAll W vars = (Throw e, []).
Proof.
  induction vars as [|v vars IH]; simpl; [by left|].
  destruct (self W !! v); [done|]. right. eauto.
Qed.

Lemma deleteLoop_settles folders : ∀ index deletedCount failedCount,
  ∃ tr,
    (∃ counts, Legacy.deleteLoop W index folders deletedCount failedCount
               = (Return counts, tr))
    ∨ (∃ e, Legacy.deleteLoop W index folders deletedCount failedCount
            = (Throw e, tr)).
Proof.
  induction folders as [|folder rest IH]; intros index d f.
  - exists []. left. by eexists.
  - simpl. unfold await, fetch.
    destruct (deleteAnswer W index) as [st json|msg]; simpl.
    + destruct (ok st); simpl.
      * destruct (IH (S index) (S d) f) as [tr [[counts ->]|[e ->]]];
          simpl; eexists; [left|right]; by eexists.
      * destruct (IH (S index) d (S f)) as [tr [[counts ->]|[e ->]]];
          simpl; eexists; [left|right]; by eexists.
    + eexists. right. by eexists.
Qed.

(** The legacy cleanup always returns a string. *)
Lemma legacy_cleanup_returns :
  ∃ s tr, Legacy.cleanupPermaCacheFolders W = (Return (VStr s), tr).
Proof.
  unfold Legacy.cleanupPermaCacheFolders, await, fetch.
  destruct (listAnswer W) as [st folders|msg]; simpl; [|by eexists _, _].
  destruct (ok st); simpl; [|by eexists _, _].
  destruct (deleteLoop_settles folders 0 0 0) as [tr [[counts ->]|[e ->]]];
    simpl; by eexists _, _.
Qed.

(** The legacy handler always returns a response. *)
Lemma legacy_handleRequest_returns request :
  ∃ r tr, Legacy.handleRequest hmacSha256Hex W request = (Return r, tr)
          ∧ status r ∈ [200; 403; 404; 500].
Proof.
  unfold Legacy.handleRequest.
  destruct (requireAll_settles Legacy.requiredEnvVars) as [->|[e ->]]; simpl;
    [|eexists _, _; split; [reflexivity|compute_done]].
  destruct (String.eqb _ _); simpl;
    [|eexists _, _; split; [reflexivity|compute_done]].
  destruct (legacy_verifySignature_returns request) as (b & tv & -> & _).
  destruct b; simpl; [|eexists _, _; split; [reflexivity|compute_done]].
  unfold await, fetch.
  destruct (purgeAnswer W) as [st json|msg]; simpl;
    [|eexists _, _; split; [reflexivity|compute_done]].
  destruct (ok st); simpl;
    [|eexists _, _; split; [reflexivity|compute_done]].
  destruct legacy_cleanup_returns as (s & tc & ->). simpl.
  eexists _, _; split; [reflexivity|compute_done].
Qed.

(** X12. The legacy worker always answers: its [handleRequest] catches
    every error of the purge and the cleanup, so its promise is fulfilled
    with a response of status 200, 403, 404 or 500 and the handler of the
    listener is never needed. *)
Theorem legacy_always_answers request :
  ∃ r tr,
    Legacy.handleRequest hmacSha256Hex W request = (Return r, tr)
    ∧ Legacy.onFetch hmacSha256Hex W request = Answer r
    ∧ status r ∈ [200; 403; 404; 500].
Proof.
  destruct (legacy_handleRequest_returns request) as (r & tr & Hr & Hst).
  exists r, tr. split_and!; [done| |done].
  unfold Legacy.onFetch, respondWith. by rewrite Hr.
Qed.

Lemma legacy_requireAll_configured :
  configured W → requireAll W Legacy.requiredEnvVars = (Return tt, []).
Proof.
  intros Hc. apply requireAll_present. intros v Hv. apply Hc.
  unfold Legacy.requiredEnvVars in Hv. unfold REQUIRED_ENV_VARS.
  rewrite !elem_of_cons in *. tauto.
Qed.

(** X15. In the legacy worker a failed purge (refused or unreachable) is
    caught by [handleRequest] itself: the client gets the 500 response
    "An error occurred: <message>", and the purge POST is the only call. *)
Theorem legacy_purge_failure_is_500 request e :
  match purgeAnswer W with
  | Responded st _ =>
      ok st = false ∧ e = mkError ("Failed to purge cache. Status: " +:+ pretty st)
  | NetworkError msg => e = mkError msg
  end →
  Fetch "POST" (purgeUrl W) ∈ trace (Legacy.handleRequest hmacSha256Hex W request) →
  Legacy.onFetch hmacSha256Hex W request =
    Answer (mkResponse 500 ("An error occurred: " +:+ message e))
  ∧ fetches (trace (Legacy.handleRequest hmacSha256Hex W request))
    = [Fetch "POST" (purgeUrl W)].
Proof.
  intros Hp. unfold Legacy.onFetch, respondWith, Legacy.handleRequest.
  destruct (requireAll_settles Legacy.requiredEnvVars) as [->|[e' ->]]; simpl;
    [|by intros Hin; in_trace].
  destruct (String.eqb _ _); simpl; [|by intros Hin; in_trace].
  destruct (legacy_verifySignature_returns request) as (b & tv & -> & Hq).
  destruct b; simpl.
  2:{ intros Hin. exfalso.
      assert (Hf : Fetch "POST" (purgeUrl W) ∈ fetches tv).
      { apply list_elem_of_In, List.filter_In. split; [|done].
        apply list_elem_of_In. in_trace. }
      rewrite Hq in Hf. by apply elem_of_nil in Hf. }
  intros _. unfold await, fetch.
  destruct (purgeAnswer W) as [st json|msg]; simpl.
  - destruct Hp as [-> ->]. simpl. split; [done|].
    unfold fetches in *. simpl. by rewrite !List.filter_app, Hq.
  - subst e. simpl. split; [done|].
    unfold fetches in *. simpl. by rewrite !List.filter_app, Hq.
Qed.

Lemma deleteLoop_aborts folders : ∀ index deletedCount failedCount k msg,
  (k < List.length folders)%nat →
  (∀ i, (i < k)%nat → ∃ st json, deleteAnswer W (index + i) = Responded st json) →
  deleteAnswer W (index + k) = NetworkError msg →
  ∃ tr,
    Legacy.deleteLoop W index folders deletedCount failedCount
      = (Throw (mkError msg), tr)
    ∧ fetches tr
      = (λ folder, Fetch "DELETE" (folderUrl W folder)) <$> take (S k) folders.
Proof.
  induction folders as [|folder rest IH]; intros index d f k msg Hk Hans Hraise.
  { simpl in Hk. lia. }
  destruct k as [|k].
  - rewrite Nat.add_0_r in Hraise.
    simpl. unfold await, fetch. rewrite Hraise.
    eexists. split; reflexivity.
  - destruct (Hans 0%nat) as (st & json & Hd); [lia|].
    rewrite Nat.add_0_r in Hd.
    assert (Hex : ∀ d' f', ∃ tr,
              Legacy.deleteLoop W (S index) rest d' f' = (Throw (mkError msg), tr)
              ∧ fetches tr
                = (λ folder, Fetch "DELETE" (folderUrl W folder)) <$> take (S k) rest).
    { intros d' f'. apply IH.
      - simpl in Hk. lia.
      - intros i Hi. replace (S index + i)%nat with (index + S i)%nat by lia.
        apply Hans. lia.
      - by replace (S index + k)%nat with (index + S k)%nat by lia. }
    cbn [Legacy.deleteLoop]. unfold await, fetch. rewrite Hd. simpl.
    destruct (ok st); simpl.
    + destruct (Hex (S d) f) as (tr & -> & Hf). simpl.
      eexists. split; [reflexivity|].
      unfold fetches in *. simpl. by rewrite Hf.
    + destruct (Hex d (S f)) as (tr & -> & Hf). simpl.
      eexists. split; [reflexivity|].
      unfold fetches in *. simpl. by rewrite Hf.
Qed.

(** X13. The legacy cleanup deletes one folder after the other: when the
    delete call of folder [k] is the first to raise, the folders after it are
    never tried, and the result is the string "Error during cleanup: <message>". *)
Theorem legacy_delete_error_aborts_loop st folders k msg :
  listAnswer W = Responded st folders → ok st = true →
  (k < List.length folders)%nat →
  (∀ i, (i < k)%nat → ∃ st' json, deleteAnswer W i = Responded st' json) →
  deleteAnswer W k = NetworkError msg →
  ∃ tr,
    Legacy.cleanupPermaCacheFolders W
      = (Return (VStr ("Error during cleanup: " +:+ msg)), tr)
    ∧ fetches tr
      = Fetch "GET" (permaCacheUrl W)
        :: ((λ folder, Fetch "DELETE" (folderUrl W folder)) <$> take (S k) folders).
Proof.
  intros Hl Hok Hk Hans Hraise.
  destruct (deleteLoop_aborts folders 0 0 0 k msg Hk Hans Hraise) as (tr & Htr & Hf).
  unfold Legacy.cleanupPermaCacheFolders, await, fetch.
  rewrite Hl. simpl. rewrite Hok. simpl. rewrite Htr. simpl.
  eexists. split; [reflexivity|].
  unfold fetches in *. simpl. rewrite List.filter_app, Hf. simpl.
  by rewrite app_nil_r.
Qed.

Lemma answered_dec n :
  answered W n
  ∨ ∃ i msg, (i < n)%nat ∧ deleteAnswer W i = NetworkError msg.
Proof.
  induction n as [|n [IH|(i & msg & Hi & Hd)]].
  - left. intros i Hi. lia.
  - destruct (deleteAnswer W n) as [st json|msg] eqn:Hd.
    + left. intros i Hi. destruct (decide (i = n)) as [->|]; [by eexists _, _|].
      apply IH. lia.
    + right. exists n, msg. split; [lia|done].
  - right. exists i, msg. split; [lia|done].
Qed.

(** When every deletion settles, the current cleanup returns. *)
Lemma cleanup_returns :
  (∀ st folders, listAnswer W = Responded st folders → ok st = true →
                 allSettle (List.length folders) (settleOrder W)) →
  ∃ v tr, cleanupPermaCacheFolders W = (Return v, tr).
Proof.
  intros Hall.
  destruct (listAnswer W) as [st folders|msg] eqn:Hl.
  - destruct (ok st) eqn:Hok.
    + specialize (Hall st folders eq_refl Hok).
      destruct (answered_dec (List.length folders)) as [Hans|(i & msg & Hi & Hd)].
      * destruct (cleanup_answered W st folders Hl Hok Hans Hall) as (? & -> & _).
        by eexists _, _.
      * destruct (cleanup_raised W st folders i msg Hl Hok Hi Hd Hall)
          as (e & settled & ->).
        by eexists _, _.
    + rewrite (cleanup_listing_refused W st folders Hl Hok). by eexists _, _.
  - unfold cleanupPermaCacheFolders, listPermaCacheFolders, await, fetch.
    rewrite Hl. by eexists _, _.
Qed.

(** X14. On a configured worker, for a request without the manual token
    on which the current verifier returns a boolean, and with every deletion
    settling, the current and the legacy worker serve the same status. *)
Theorem legacy_and_current_serve_same_status request b tr :
  configured W →
  strict_eq (headers_get "manualtriggertoken" request)
            (self_get W "MANUAL_TRIGGER_TOKEN") = false →
  verifySignature hmacSha256Hex W request = (Return (VBool b), tr) →
  (∀ st folders, listAnswer W = Responded st folders → ok st = true →
                 allSettle (List.length folders) (settleOrder W)) →
  servedStatus (onFetch hmacSha256Hex W request)
  = servedStatus (Legacy.onFetch hmacSha256Hex W request).
Proof.
  intros Hc Hno Hv Hall.
  unfold onFetch, Legacy.onFetch, respondWith.
  rewrite (handleRequest_configured hmacSha256Hex W request Hc).
  unfold Legacy.handleRequest.
  rewrite (legacy_requireAll_configured Hc).
  destruct (String.eqb (pathname request) "/purge-full-cache"); [|reflexivity].
  unfold handlePurgeFullCache. rewrite Hno, Hv.
  rewrite (legacy_verifySignature_agrees request b tr Hv).
  destruct b; [|reflexivity].
  destruct (cleanup_returns Hall) as (v & tc & Hcur).
  destruct legacy_cleanup_returns as (s & tl & Hleg).
  unfold purgeThenCleanup, purgeBunnyCDNCache, await, fetch.
  destruct (purgeAnswer W) as [st json|msg]; [|reflexivity].
  simpl. destruct (ok st); [|reflexivity].
  simpl. rewrite Hcur, Hleg. reflexivity.
Qed.
End LegacyProps.

(** ** What an answer tells about the run *)

Section Answers.
Variable hmacSha256Hex : string → string → string.
Variable W : World.

(** The tail of [handlePurgeFullCache] returns only after an accepted purge,
    and then the listing has been asked for. *)
Lemma purgeThenCleanup_returned r tr :
  purgeThenCleanup W = (Return r, tr) →
  (∃ st json, purgeAnswer W = Responded st json ∧ ok st = true)
  ∧ Fetch "POST" (purgeUrl W) ∈ tr
  ∧ Fetch "GET" (permaCacheUrl W) ∈ tr.
Proof.
  intros Hr. pose proof (purge_called W) as Hpost. rewrite Hr in Hpost.
  assert (Hget : Fetch "GET" (permaCacheUrl W) ∈ trace (cleanupPermaCacheFolders W)).
  { apply (fetches_elem _ _). rewrite cleanup_fetches. apply list_elem_of_here. }
  revert Hr. unfold purgeThenCleanup, purgeBunnyCDNCache, await, fetch.
  destruct (purgeAnswer W) as [st json|msg]; simpl; [|done].
  destruct (ok st) eqn:Hok; simpl; [|done].
  destruct (cleanupPermaCacheFolders W) as [[v|e|] tc]; simpl; try done.
  intros [= <- <-]. split_and!; [by eexists _, _|done|].
  simpl in Hget. in_trace.
Qed.

(** X17. The 500 response of the [catch] of [handleRequest] has one cause
    only, a missing variable: whenever [handleRequest] resolves with status
    500, one of the required names is unbound and the body names it.  No
    failure of the verifier, the purge or the cleanup is answered by this
    [catch]. *)
Theorem server_error_means_missing_variable request r tr :
  handleRequest hmacSha256Hex W request = (Return r, tr) →
  status r = HTTP_SERVER_ERROR →
  ∃ missing,
    missing ∈ REQUIRED_ENV_VARS ∧ self W !! missing = None
    ∧ body r = "An error occurred: Missing required environment variable: "
               +:+ missing.
Proof.
  intros Hr Hst.
  destruct (configured_dec W) as [Hc|(v & Hin & Hv)].
  - exfalso. rewrite (handleRequest_configured hmacSha256Hex W request Hc) in Hr.
    destruct (String.eqb _ _).
    + destruct (handlePurgeFullCache_cases hmacSha256Hex W request)
        as (pre & _ & [Hp|Hp]); rewrite Hp in Hr.
      * injection Hr as <- _. discriminate.
      * assert (Hok : status r = HTTP_OK).
        { apply (purgeThenCleanup_status W).
          rewrite <-(completion_emit_bind pre), <-(completion_emit_bind routingLog).
          by rewrite Hr. }
        rewrite Hst in Hok. discriminate.
    + injection Hr as <- _. discriminate.
  - destruct (handleRequest_missing hmacSha256Hex W request v Hin Hv)
      as (missing & Hm & Hnone & Heq).
    rewrite Heq in Hr. injection Hr as <- _. by exists missing.
Qed.

(** X18. Success is never reported without a purge: whenever [handleRequest]
    resolves with status 200, the purge call was made and answered with a
    2xx status, and the listing of the cleanup was asked for. *)
Theorem success_means_purge_succeeded request r tr :
  handleRequest hmacSha256Hex W request = (Return r, tr) →
  status r = HTTP_OK →
  (∃ st json, purgeAnswer W = Responded st json ∧ ok st = true)
  ∧ Fetch "POST" (purgeUrl W) ∈ tr
  ∧ Fetch "GET" (permaCacheUrl W) ∈ tr.
Proof.
  intros Hr Hst.
  destruct (configured_dec W) as [Hc|(v & Hin & Hv)].
  - rewrite (handleRequest_configured hmacSha256Hex W request Hc) in Hr.
    destruct (String.eqb _ _).
    + destruct (handlePurgeFullCache_cases hmacSha256Hex W request)
        as (pre & _ & [Hp|Hp]); rewrite Hp in Hr.
      * injection Hr as <- _. discriminate.
      * pose proof (f_equal trace Hr) as Ht.
        pose proof (f_equal completion Hr) as Hcmp.
        rewrite !trace_emit_bind in Ht. rewrite !completion_emit_bind in Hcmp.
        destruct (purgeThenCleanup W) as [c t] eqn:Hrun.
        change (routingLog ++ pre ++ t = tr) in Ht.
        change (c = Return r) in Hcmp. subst c tr.
        destruct (purgeThenCleanup_returned r t Hrun) as (Hpurge & Hpost & Hget).
        split_and!; [done| |]; rewrite !elem_of_app; auto.
    + injection Hr as <- _. discriminate.
  - destruct (handleRequest_missing hmacSha256Hex W request v Hin Hv)
      as (missing & _ & _ & Heq).
    rewrite Heq in Hr. injection Hr as <- _. discriminate.
Qed.
End Answers.

(** * The further properties on concrete worlds *)

(** X1: signed at [clock] with the bound secret. *)
Lemma signed_request_is_verified_witness :
  verifySignature hexDigest twoOfThree signed = (Return (VBool true), [])
  ∧ Fetch "POST" (purgeUrl twoOfThree)
      ∈ trace (handlePurgeFullCache hexDigest twoOfThree signed).
Proof.
  apply (signed_request_is_verified hexDigest twoOfThree signed "s3cret" clock);
    [reflexivity|reflexivity|reflexivity|discriminate
    |unfold clock; lia|vm_compute; discriminate].
Defined.

(** X2: the hash "abc" is not the digest. *)
Lemma forged_hash_is_refused_witness :
  verifySignature hexDigest twoOfThree forged = (Return (VBool false), [])
  ∧ handlePurgeFullCache hexDigest twoOfThree forged =
      (Return (mkResponse HTTP_FORBIDDEN "Invalid signature"),
       [Log "info" "Received token:";
        Log "info" "Verifying Ghost webhook signature";
        Log "warn" "Invalid signature"]).
Proof.
  apply (forged_hash_is_refused hexDigest twoOfThree forged "abc" clock);
    [reflexivity|reflexivity|unfold clock; lia| |reflexivity].
  intros secret Hsecret. vm_compute in Hsecret. injection Hsecret as <-.
  vm_compute. discriminate.
Defined.

(** X3 *)
Lemma verified_means_digest_matches_witness :
  ∃ h sigHash timeStamp rest secret,
    headers_get "X-Ghost-Signature" signed = VStr h
    ∧ JsString.split ", " h = sigHash :: timeStamp :: rest
    ∧ self twoOfThree !! "GHOST_WEBHOOK_SECRET" = Some secret ∧ secret ≠ ""
    ∧ (let ts := element 1 (VStr <$> JsString.split "=" timeStamp) in
       element 1 (VStr <$> JsString.split "=" sigHash)
         = VStr (hexDigest secret (text signed +:+ toString ts))
       ∧ ∀ t, JsString.parseInt (toString ts) = Some t →
              Z.abs (now twoOfThree - t) ≤ 5 * 60 * 1000).
Proof.
  apply (verified_means_digest_matches hexDigest twoOfThree signed []).
  vm_compute. reflexivity.
Defined.

(** X7: a stale signature is answered 403. *)
Lemma refusal_makes_no_call_witness :
  fetches (trace (handleRequest digest twoOfThree stale)) = [].
Proof.
  apply (refusal_makes_no_call digest twoOfThree stale
           (mkResponse HTTP_FORBIDDEN "Invalid signature"));
    [vm_compute; reflexivity|vm_compute; discriminate].
Defined.

(** X8: the purge endpoint cannot be reached. *)
Lemma purge_network_error_skips_cleanup_witness :
  let run := handleRequest digest purgeUnreachable manual in
  (fetches (trace run) = []
   ∨ fetches (trace run) = [Fetch "POST" (purgeUrl purgeUnreachable)])
  ∧ (∀ level, Log level "Starting Perma-Cache folder cleanup" ∉ trace run)
  ∧ (Fetch "POST" (purgeUrl purgeUnreachable) ∈ trace run →
     onFetch digest purgeUnreachable manual
     = WorkerException (mkError "connection refused")).
Proof.
  apply (purge_network_error_skips_cleanup digest purgeUnreachable manual
           "connection refused").
  reflexivity.
Defined.

(** X9 *)
Lemma one_delete_per_listed_folder_witness :
  fetches (trace (cleanupPermaCacheFolders twoOfThree))
  = Fetch "GET" (permaCacheUrl twoOfThree)
    :: ((λ folder, Fetch "DELETE" (folderUrl twoOfThree folder)) <$> threeFolders).
Proof.
  apply (one_delete_per_listed_folder twoOfThree 200 threeFolders);
    reflexivity.
Defined.

(** X16 *)
Lemma only_listed_folders_are_deleted_witness :
  ∃ st folders folder,
    listAnswer twoOfThree = Responded st folders ∧ ok st = true
    ∧ folder ∈ folders
    ∧ folderUrl twoOfThree (mkFolder "b") = folderUrl twoOfThree folder.
Proof.
  apply (only_listed_folders_are_deleted twoOfThree
           (folderUrl twoOfThree (mkFolder "b"))).
  compute_done.
Defined.

(** X10 *)
Lemma empty_listing_tally_witness :
  cleanupPermaCacheFolders emptyListing =
    (Return (VStr "Cleanup completed. Total folders: 0, Deleted: 0, Failed: 0"),
     listingEvents emptyListing ++ [Log "info" "Cleanup completed"]).
Proof.
  apply (empty_listing_tally emptyListing 200); reflexivity.
Defined.

(** X11: the manual trigger on the world with one refused deletion. *)
Lemma authorized_run_reports_tally_witness :
  onFetch digest twoOfThree manual =
    Answer (mkResponse HTTP_OK
              ("Full cache purge initiated successfully. Cleanup result: "
               +:+ tallyString 3 (3 - failures twoOfThree 3) (failures twoOfThree 3)))
  ∧ fetches (trace (handleRequest digest twoOfThree manual))
    = Fetch "POST" (purgeUrl twoOfThree) :: Fetch "GET" (permaCacheUrl twoOfThree)
      :: ((λ folder, Fetch "DELETE" (folderUrl twoOfThree folder)) <$> threeFolders).
Proof.
  apply (authorized_run_reports_tally digest twoOfThree manual 200 [] 200 threeFolders);
    [reflexivity|reflexivity|reflexivity|reflexivity|all_answered
    |settles_in_order|compute_done].
Defined.

(** X13: the second of three deletions raises; the third is never tried. *)
Lemma legacy_delete_error_aborts_loop_witness :
  ∃ tr,
    Legacy.cleanupPermaCacheFolders secondRaises
      = (Return (VStr ("Error during cleanup: " +:+ "connection reset")), tr)
    ∧ fetches tr
      = Fetch "GET" (permaCacheUrl secondRaises)
        :: ((λ folder, Fetch "DELETE" (folderUrl secondRaises folder))
              <$> take 2 threeFolders).
Proof.
  apply (legacy_delete_error_aborts_loop secondRaises 200 threeFolders 1
           "connection reset");
    [reflexivity|reflexivity|simpl; lia| |reflexivity].
  intros i Hi. destruct i as [|i]; [by eexists _, _|lia].
Defined.

(** X14 *)
Lemma legacy_and_current_serve_same_status_witness :
  servedStatus (onFetch hexDigest twoOfThree signed)
  = servedStatus (Legacy.onFetch hexDigest twoOfThree signed).
Proof.
  apply (legacy_and_current_serve_same_status hexDigest twoOfThree signed true []).
  - intros varName Hin. unfold REQUIRED_ENV_VARS in Hin.
    repeat (apply elem_of_cons in Hin as [->|Hin]; [by eexists|]).
    by apply elem_of_nil in Hin.
  - reflexivity.
  - vm_compute. reflexivity.
  - intros st folders [= <- <-] _. settles_in_order.
Defined.

(** X15: the purge is answered 503. *)
Lemma legacy_purge_failure_is_500_witness :
  Legacy.onFetch hexDigest purgeDown signed =
    Answer (mkResponse 500 ("An error occurred: "
                            +:+ "Failed to purge cache. Status: 503"))
  ∧ fetches (trace (Legacy.handleRequest hexDigest purgeDown signed))
    = [Fetch "POST" (purgeUrl purgeDown)].
Proof.
  apply (legacy_purge_failure_is_500 hexDigest purgeDown signed
           (mkError "Failed to purge cache. Status: 503"));
    [split; reflexivity|compute_done].
Defined.

(** X17: nothing is bound. *)
Lemma server_error_means_missing_variable_witness :
  ∃ missing,
    missing ∈ REQUIRED_ENV_VARS ∧ self unconfigured !! missing = None
    ∧ body (mkResponse HTTP_SERVER_ERROR
              "An error occurred: Missing required environment variable: GHOST_WEBHOOK_SECRET")
      = "An error occurred: Missing required environment variable: " +:+ missing.
Proof.
  apply (server_error_means_missing_variable digest unconfigured elsewhere _
           (trace (handleRequest digest unconfigured elsewhere)));
    [vm_compute; reflexivity|reflexivity].
Defined.

(** X18: the manual trigger on the world with one refused deletion. *)
Lemma success_means_purge_succeeded_witness :
  (∃ st json, purgeAnswer twoOfThree = Responded st json ∧ ok st = true)
  ∧ Fetch "POST" (purgeUrl twoOfThree)
      ∈ trace (handleRequest digest twoOfThree manual)
  ∧ Fetch "GET" (permaCacheUrl twoOfThree)
      ∈ trace (handleRequest digest twoOfThree manual).
Proof.
  apply (success_means_purge_succeeded digest twoOfThree manual
           (mkResponse HTTP_OK
              "Full cache purge initiated successfully. Cleanup result: Cleanup completed. Total folders: 3, Deleted: 2, Failed: 1"));
    [vm_compute; reflexivity|reflexivity].
Defined.
